(** * Neighborhood community web application: onboarding form and map widget

    A shallow embedding of the two client components that carry the
    application's logic:

    - [Onboarding]: the multi-step onboarding page
      (src/app/onboarding/page.tsx): its React state, the event handlers
      [handleInputChange], [handleInterestToggle], [handleSubmit], the
      mount effect [checkAuth] and the controls rendered at each step;
    - [NeighborhoodMap]: the map widget: its mount effect, the
      [geocodeAddress] call and the calls it makes to the mapping SDK.

    The hosted services (authentication, data store, geocoding, map SDK)
    are outside the repository: every answer they give is an input of the
    model, and every call made to them is recorded as an event. *)

From stdpp Require Import gmap strings list.
From Stdlib Require Import ZArith Lia Ascii.

Local Open Scope Z_scope.

(** ** Values shared by both components *)

(** What a JavaScript [throw] or a rejected promise carries, as far as the
    handlers can tell values apart: [error instanceof Error] together with
    its [message], or anything else. *)
Inductive Thrown : Type :=
  | ErrorObject (message : string)
  | NonError.

(** The settlement of an awaited promise. *)
Inductive Outcome (A : Type) : Type :=
  | Resolved (a : A)
  | Rejected (t : Thrown).
Arguments Resolved {A} a.
Arguments Rejected {A} t.

(** [a || b] on strings: the empty string is the only falsy string. *)
Definition or_else (a b : string) : string :=
  if decide (a = "") then b else a.

(** [String.prototype.toLowerCase] restricted to ASCII: the letters A to
    Z are lowered and every other byte is left as it is.  It is what the
    runtime computes on the ASCII labels of the onboarding page; the map
    widget, which lowers text that comes from outside, takes the function
    of the runtime as a parameter. *)
Definition lower_ascii (c : ascii) : ascii :=
  let n := nat_of_ascii c in
  if (Nat.leb 65 n && Nat.leb n 90)%bool then ascii_of_nat (n + 32) else c.

Fixpoint toLowerCase (s : string) : string :=
  match s with
  | EmptyString => EmptyString
  | String c s' => String (lower_ascii c) (toLowerCase s')
  end.

(** [String.prototype.isWellFormed]: the string has no lone surrogate.
    Strings are held as bytes, in the UTF-8 form of the JavaScript string,
    a lone surrogate being held in its three-byte form (ED, then a byte
    from A0 to BF, then one more). *)
Fixpoint isWellFormed (s : string) : bool :=
  match s with
  | EmptyString => true
  | String c s' =>
      match s' with
      | String d _ =>
          if (Nat.eqb (nat_of_ascii c) 237 &&
              Nat.leb 160 (nat_of_ascii d) && Nat.leb (nat_of_ascii d) 191)%bool
          then false
          else isWellFormed s'
      | EmptyString => true
      end
  end.

(** A lone high surrogate (U+D800), as bytes. *)
Definition loneSurrogate : string :=
  String (ascii_of_nat 237)
    (String (ascii_of_nat 160) (String (ascii_of_nat 128) EmptyString)).

Module Onboarding.

(** *** Data model *)

Record FormData : Type := mkFormData {
  neighborhoodName : string;
  address : string;
  city : string;
  state : string;
  interests : list string;
  communityType : string
}.

(** The component's [useState] cells. *)
Record UIState : Type := mkUI {
  step : Z;
  isSubmitting : bool;
  error : option string;
  formData : FormData
}.

Definition initialFormData : FormData :=
  {| neighborhoodName := ""; address := ""; city := ""; state := "";
     interests := []; communityType := "residential" |}.

Definition initialUI : UIState :=
  {| step := 1; isSubmitting := false; error := None;
     formData := initialFormData |}.

(** *** [handleInterestToggle] *)

(** [Array.prototype.includes] on an array of strings. *)
Fixpoint includes (l : list string) (x : string) : bool :=
  match l with
  | [] => false
  | y :: l' => if decide (y = x) then true else includes l' x
  end.

(** The new [interests] array computed from [prev.interests]. *)
Definition toggleInterest (interest : string) (prev : list string) : list string :=
  if includes prev interest
  then filter (λ i, i ≠ interest) prev
  else prev ++ [interest].

Definition handleInterestToggle (interest : string) (prev : FormData) : FormData :=
  {| neighborhoodName := neighborhoodName prev;
     address := address prev;
     city := city prev;
     state := state prev;
     interests := toggleInterest interest (interests prev);
     communityType := communityType prev |}.

(** *** [handleInputChange] *)

(** [{...prev, [name]: value}].  The five names below are the [name]
    attributes of the rendered inputs: the field is replaced.  With the
    name [interests], which no rendered control has, the array would be
    overwritten by the string: the result is no [FormData], hence [None].
    For any other name JavaScript adds a property that is not part of
    [FormData] and that nothing reads. *)
Definition handleInputChange (name value : string) (prev : FormData)
    : option FormData :=
  if decide (name = "neighborhoodName") then
    Some (mkFormData value (address prev) (city prev) (state prev)
                     (interests prev) (communityType prev))
  else if decide (name = "address") then
    Some (mkFormData (neighborhoodName prev) value (city prev) (state prev)
                     (interests prev) (communityType prev))
  else if decide (name = "city") then
    Some (mkFormData (neighborhoodName prev) (address prev) value (state prev)
                     (interests prev) (communityType prev))
  else if decide (name = "state") then
    Some (mkFormData (neighborhoodName prev) (address prev) (city prev) value
                     (interests prev) (communityType prev))
  else if decide (name = "communityType") then
    Some (mkFormData (neighborhoodName prev) (address prev) (city prev)
                     (state prev) (interests prev) value)
  else if decide (name = "interests") then None
  else Some prev.

(** *** The hosted services *)

Record User : Type := mkUser { id : string }.
Record Session : Type := mkSession { user : User }.

(** A row of the [user_profiles] table, as [handleSubmit] builds it. *)
Record ProfileRow : Type := mkProfileRow {
  p_user_id : string;
  p_neighborhood_name : string;
  p_address : string;
  p_city : string;
  p_state : string;
  p_interests : list string;
  p_community_type : string;
  p_created_at : string;
  p_updated_at : string
}.

(** A row of the [neighborhoods] table. *)
Record NeighborhoodRow : Type := mkNeighborhoodRow {
  n_user_id : string;
  n_name : string;
  n_address : string;
  n_city : string;
  n_state : string;
  n_created_at : string;
  n_updated_at : string
}.

(** The two tables of the hosted store, keyed by the [user_id] column,
    the only identifying column the page sends. *)
Record Database : Type := mkDatabase {
  user_profiles : gmap string ProfileRow;
  neighborhoods : gmap string NeighborhoodRow
}.

(** The answers of the services during one run of a handler.  An upsert
    answers [{ error }]: [None] is success, [Some e] the error object. *)
Record Services : Type := mkServices {
  getSession : Outcome (option Session);
  select_profile : Outcome (option ProfileRow);
  getUser : Outcome (option User);
  upsert_user_profiles : Outcome (option Thrown);
  upsert_neighborhoods : Outcome (option Thrown);
  clock : nat → string
}.

(** Everything a handler does that is visible outside of it. *)
Inductive Event : Type :=
  | EPreventDefault
  | ESetStep (n : Z)
  | ESetIsSubmitting (b : bool)
  | ESetError (e : option string)
  | EGetSession
  | ESelectProfile (user_id : string)
  | EGetUser
  | EUpsertProfile (row : ProfileRow)
  | EUpsertNeighborhood (row : NeighborhoodRow)
  | ERouterPush (path : string)
  | EConsoleLog (label : string)
  | EConsoleError (label : string).

(** *** A state-and-exception monad for the handlers *)

Record World : Type := mkWorld {
  ui : UIState;
  db : Database;
  ticks : nat
}.

Inductive Result (A : Type) : Type :=
  | Val (a : A)
  | Exn (t : Thrown).
Arguments Val {A} a.
Arguments Exn {A} t.

Definition M (A : Type) : Type := World → Result A * World * list Event.

#[export] Instance M_ret : MRet M := λ A a w, (Val a, w, []).

#[export] Instance M_bind : MBind M := λ A B f m w,
  match m w with
  | (Val a, w1, e1) =>
      match f a w1 with (r, w2, e2) => (r, w2, e1 ++ e2) end
  | (Exn t, w1, e1) => (Exn t, w1, e1)
  end.

Definition throw {A : Type} (t : Thrown) : M A := λ w, (Exn t, w, []).

Definition emit (e : Event) : M unit := λ w, (Val (), w, [e]).

Definition modify_ui (f : UIState → UIState) : M unit :=
  λ w, (Val (), mkWorld (f (ui w)) (db w) (ticks w), []).

Definition modify_db (f : Database → Database) : M unit :=
  λ w, (Val (), mkWorld (ui w) (f (db w)) (ticks w), []).

(** [await p]: the value of a resolved promise, the exception of a
    rejected one. *)
Definition await {A : Type} (o : Outcome A) : M A :=
  match o with
  | Resolved a => mret a
  | Rejected t => throw t
  end.

(** [try { body } catch (e) { handler } finally { fin }]. *)
Definition try_catch_finally (body : M unit) (handler : Thrown → M unit)
    (fin : M unit) : M unit := λ w,
  match body w with
  | (r1, w1, e1) =>
      match (match r1 with
             | Val a => (Val a, w1, [])
             | Exn t => handler t w1
             end) with
      | (r2, w2, e2) =>
          match fin w2 with
          | (r3, w3, e3) =>
              (match r3 with Exn t => Exn t | Val _ => r2 end,
               w3, e1 ++ e2 ++ e3)
          end
      end
  end.

(** The state setters. *)
Definition setStep (n : Z) : M unit :=
  emit (ESetStep n);;
  modify_ui (λ s, mkUI n (isSubmitting s) (error s) (formData s)).

Definition setIsSubmitting (b : bool) : M unit :=
  emit (ESetIsSubmitting b);;
  modify_ui (λ s, mkUI (step s) b (error s) (formData s)).

Definition setError (e : option string) : M unit :=
  emit (ESetError e);;
  modify_ui (λ s, mkUI (step s) (isSubmitting s) e (formData s)).

(** [new Date().toISOString()]: one more reading of the clock. *)
Definition now (env : Services) : M string := λ w,
  (Val (clock env (ticks w)), mkWorld (ui w) (db w) (S (ticks w)), []).

Definition routerPush (path : string) : M unit := emit (ERouterPush path).

(** [supabase.from('user_profiles').upsert(row)]: the row is written when
    the store answers without an error. *)
Definition upsertProfile (env : Services) (row : ProfileRow)
    : M (option Thrown) :=
  emit (EUpsertProfile row);;
  r ← await (upsert_user_profiles env);
  match r with
  | None =>
      modify_db (λ d, mkDatabase (<[p_user_id row := row]> (user_profiles d))
                                 (neighborhoods d));;
      mret None
  | Some e => mret (Some e)
  end.

(** [supabase.from('neighborhoods').upsert(row)]. *)
Definition upsertNeighborhood (env : Services) (row : NeighborhoodRow)
    : M (option Thrown) :=
  emit (EUpsertNeighborhood row);;
  r ← await (upsert_neighborhoods env);
  match r with
  | None =>
      modify_db (λ d, mkDatabase (user_profiles d)
                                 (<[n_user_id row := row]> (neighborhoods d)));;
      mret None
  | Some e => mret (Some e)
  end.

(** *** [checkAuth], the mount effect *)

Definition checkAuth (env : Services) : M unit :=
  emit EGetSession;;
  session ← await (getSession env);
  match session with
  | None => routerPush "/auth/login"
  | Some session =>
      (* Check if user has already completed onboarding *)
      emit (ESelectProfile (id (user session)));;
      profile ← await (select_profile env);
      match profile with
      | Some _ => routerPush "/dashboard"
      | None => mret ()
      end
  end.

(** *** [handleSubmit] *)

(** The body of the [try] block.  [fd] is the [formData] of the render
    the handler belongs to. *)
Definition submitBody (fd : FormData) (env : Services) : M unit :=
  emit EGetUser;;
  u ← await (getUser env);
  match u with
  | None => throw (ErrorObject "No user found")
  | Some u =>
      emit (EConsoleLog "Saving profile with data:");;
      (* Save user profile data *)
      created ← now env;
      updated ← now env;
      profileError ← upsertProfile env
        {| p_user_id := id u;
           p_neighborhood_name := neighborhoodName fd;
           p_address := address fd;
           p_city := city fd;
           p_state := state fd;
           p_interests := interests fd;
           p_community_type := communityType fd;
           p_created_at := created;
           p_updated_at := updated |};
      match profileError with
      | Some e => emit (EConsoleError "Profile error:");; throw e
      | None =>
          (* Create or update neighborhood *)
          created ← now env;
          updated ← now env;
          neighborhoodError ← upsertNeighborhood env
            {| n_user_id := id u;
               n_name := neighborhoodName fd;
               n_address := address fd;
               n_city := city fd;
               n_state := state fd;
               n_created_at := created;
               n_updated_at := updated |};
          match neighborhoodError with
          | Some e => emit (EConsoleError "Neighborhood error:");; throw e
          | None =>
              emit (EConsoleLog
                      "Successfully saved data, redirecting to dashboard...");;
              routerPush "/dashboard"
          end
      end
  end.

(** The [catch] block. *)
Definition submitCatch (e : Thrown) : M unit :=
  match e with
  | ErrorObject message =>
      emit (EConsoleError "Error saving profile:");;
      setError (Some (or_else message
                        "An error occurred while saving your profile"))
  | NonError => setError (Some "An unexpected error occurred")
  end.

(** [s] is the state of the render the handler was created in. *)
Definition handleSubmit (s : UIState) (env : Services) : M unit :=
  emit EPreventDefault;;
  if step s <? 3 then setStep (step s + 1)
  else
    setIsSubmitting true;;
    setError None;;
    try_catch_finally (submitBody (formData s) env)
                      submitCatch
                      (setIsSubmitting false).

(** *** What is rendered at each step *)

(** The keys of the [FormData] interface, in declaration order. *)
Inductive FieldKey : Type :=
  | KNeighborhoodName | KAddress | KCity | KState | KInterests
  | KCommunityType.

#[export] Instance FieldKey_eq_dec : EqDecision FieldKey.
Proof. solve_decision. Defined.


Definition keyName (k : FieldKey) : string :=
  match k with
  | KNeighborhoodName => "neighborhoodName"
  | KAddress => "address"
  | KCity => "city"
  | KState => "state"
  | KInterests => "interests"
  | KCommunityType => "communityType"
  end.

Inductive FieldValue : Type :=
  | VString (s : string)
  | VStrings (l : list string).

Definition getField (k : FieldKey) (fd : FormData) : FieldValue :=
  match k with
  | KNeighborhoodName => VString (neighborhoodName fd)
  | KAddress => VString (address fd)
  | KCity => VString (city fd)
  | KState => VString (state fd)
  | KInterests => VStrings (interests fd)
  | KCommunityType => VString (communityType fd)
  end.

Inductive ControlKind : Type :=
  | TextInput        (* <input type="text"> *)
  | SelectBox        (* <select> *)
  | CheckboxGroup.   (* one checkbox per interest *)

#[export] Instance ControlKind_eq_dec : EqDecision ControlKind.
Proof. solve_decision. Defined.

(** The controls inside [{step === n && (...)}], each with the key of
    [formData] it edits. *)
Definition controls (step : Z) : list (FieldKey * ControlKind) :=
  (if step =? 1 then [(KNeighborhoodName, TextInput)] else []) ++
  (if step =? 2 then [(KAddress, TextInput); (KCity, TextInput);
                      (KState, TextInput); (KCommunityType, SelectBox)]
   else []) ++
  (if step =? 3 then [(KInterests, CheckboxGroup)] else []).

Definition interestLabels : list string :=
  ["Events"; "Safety"; "Environment"; "Education"; "Sports"; "Arts";
   "Food"; "Business"].

(** *** The page as a transition system *)

(** What the user can do with the rendered page.  A submit carries the
    answers the services will give during that submission. *)
Inductive Action : Type :=
  | Submit (env : Services)
  | Back
  | InputChange (name value : string)
  | InterestToggle (interest : string).

(** An action is possible when its control is rendered and enabled.  The
    browser's validation of the [required] inputs, which can only hold a
    submit back, is not part of it: see [requiredFilled]. *)
Definition enabled (s : UIState) (a : Action) : bool :=
  match a with
  | Submit _ => negb (isSubmitting s)
  | Back => 1 <? step s
  | InputChange name _ =>
      bool_decide (name ∈ keyName <$>
                     (filter (λ c, c.2 ≠ CheckboxGroup) (controls (step s))).*1)
  | InterestToggle interest =>
      bool_decide (KInterests ∈ (controls (step s)).*1) &&
      bool_decide (interest ∈ toLowerCase <$> interestLabels)
  end.

Definition setFormData (f : FormData → FormData) : M unit :=
  modify_ui (λ s, mkUI (step s) (isSubmitting s) (error s) (f (formData s))).

Definition perform (a : Action) (s : UIState) : M unit :=
  match a with
  | Submit env => handleSubmit s env
  | Back => setStep (step s - 1)
  | InputChange name value =>
      (* an input change is possible for the rendered names only, for
         which the result is a [FormData] *)
      setFormData (λ prev, default prev (handleInputChange name value prev))
  | InterestToggle interest => setFormData (handleInterestToggle interest)
  end.

(** The world after an action, and the events of the action. *)
Definition act (a : Action) (w : World) : World * list Event :=
  match perform a (ui w) w with (_, w', evs) => (w', evs) end.

Inductive reachable : World → Prop :=
  | reachable_mount d t : reachable (mkWorld initialUI d t)
  | reachable_act w a :
      reachable w → enabled (ui w) a = true → reachable (act a w).1.

(** *** Reading a trace *)

Definition is_upsert (e : Event) : bool :=
  match e with
  | EUpsertProfile _ | EUpsertNeighborhood _ => true
  | _ => false
  end.

Definition redirects (evs : list Event) : list string :=
  omap (λ e, match e with ERouterPush p => Some p | _ => None end) evs.

(** The table each upsert of a trace goes to, in order. *)
Definition upsert_tables (evs : list Event) : list string :=
  omap (λ e, match e with
             | EUpsertProfile _ => Some "user_profiles"
             | EUpsertNeighborhood _ => Some "neighborhoods"
             | _ => None
             end) evs.

(** The services called in a trace, in order. *)
Definition service_calls (evs : list Event) : list string :=
  omap (λ e, match e with
             | EGetSession => Some "auth.getSession"
             | ESelectProfile _ => Some "user_profiles.select"
             | EGetUser => Some "auth.getUser"
             | EUpsertProfile _ => Some "user_profiles.upsert"
             | EUpsertNeighborhood _ => Some "neighborhoods.upsert"
             | _ => None
             end) evs.

(** An upsert succeeds when the store answers, and without an error. *)
Definition succeeded (o : Outcome (option Thrown)) : bool :=
  match o with
  | Resolved None => true
  | _ => false
  end.

Definition both_upserts_succeed (env : Services) : Prop :=
  succeeded (upsert_user_profiles env) = true ∧
  succeeded (upsert_neighborhoods env) = true.

(** What a failed upsert throws. *)
Definition failure (o : Outcome (option Thrown)) : option Thrown :=
  match o with
  | Resolved None => None
  | Resolved (Some e) => Some e
  | Rejected t => Some t
  end.

(** The errors a final-step submission can raise: a missing user, a
    failed upsert, or a call that does not answer at all. *)
Inductive raises (env : Services) : Thrown → Prop :=
  | raises_getUser t :
      getUser env = Rejected t → raises env t
  | raises_no_user :
      getUser env = Resolved None →
      raises env (ErrorObject "No user found")
  | raises_profile u t :
      getUser env = Resolved (Some u) →
      failure (upsert_user_profiles env) = Some t →
      raises env t
  | raises_neighborhood u t :
      getUser env = Resolved (Some u) →
      succeeded (upsert_user_profiles env) = true →
      failure (upsert_neighborhoods env) = Some t →
      raises env t.

(** The string the page shows for a caught value. *)
Definition errorMessage (t : Thrown) : string :=
  match t with
  | ErrorObject message =>
      or_else message "An error occurred while saving your profile"
  | NonError => "An unexpected error occurred"
  end.

(** The row of [user_profiles] built from [fd] for user [u]. *)
Definition profileRow (u : User) (fd : FormData) (created updated : string)
    : ProfileRow :=
  {| p_user_id := id u;
     p_neighborhood_name := neighborhoodName fd;
     p_address := address fd;
     p_city := city fd;
     p_state := state fd;
     p_interests := interests fd;
     p_community_type := communityType fd;
     p_created_at := created;
     p_updated_at := updated |}.

(** The row of [neighborhoods] built from [fd] for user [u]. *)
Definition neighborhoodRow (u : User) (fd : FormData)
    (created updated : string) : NeighborhoodRow :=
  {| n_user_id := id u;
     n_name := neighborhoodName fd;
     n_address := address fd;
     n_city := city fd;
     n_state := state fd;
     n_created_at := created;
     n_updated_at := updated |}.

(** The fields gathered over the three steps, without repetition. *)
Definition collectedFields : list FieldKey :=
  remove_dups (concat ((λ n, (controls n).*1) <$> [1; 2; 3])).


(** **** Sample inputs *)

Definition sampleUser : User := mkUser "user-1".

Definition sampleForm : FormData :=
  {| neighborhoodName := "Maple Grove"; address := "12 Elm Street";
     city := "Provo"; state := "Utah";
     interests := ["events"; "safety"]; communityType := "residential" |}.

Definition finalStep : UIState :=
  {| step := 3; isSubmitting := false; error := None;
     formData := sampleForm |}.

Definition emptyWorld (s : UIState) : World :=
  mkWorld s (mkDatabase ∅ ∅) 0.

Definition sampleClock (n : nat) : string :=
  "2024-01-01T00:00:0" +:+ String (ascii_of_nat (48 + n)) EmptyString +:+ "Z".

(** Every service answers well. *)
Definition servicesOk : Services :=
  {| getSession := Resolved (Some (mkSession sampleUser));
     select_profile := Resolved None;
     getUser := Resolved (Some sampleUser);
     upsert_user_profiles := Resolved None;
     upsert_neighborhoods := Resolved None;
     clock := sampleClock |}.

(** The store refuses the profile row. *)
Definition profileUpsertFails : Services :=
  {| getSession := Resolved (Some (mkSession sampleUser));
     select_profile := Resolved None;
     getUser := Resolved (Some sampleUser);
     upsert_user_profiles := Resolved (Some NonError);
     upsert_neighborhoods := Resolved None;
     clock := sampleClock |}.

(** The store accepts the profile row and refuses the neighborhood row. *)
Definition neighborhoodUpsertFails : Services :=
  {| getSession := Resolved (Some (mkSession sampleUser));
     select_profile := Resolved None;
     getUser := Resolved (Some sampleUser);
     upsert_user_profiles := Resolved None;
     upsert_neighborhoods := Resolved (Some NonError);
     clock := sampleClock |}.

(** Nobody is signed in. *)
Definition signedOut : Services :=
  {| getSession := Resolved None;
     select_profile := Resolved None;
     getUser := Resolved None;
     upsert_user_profiles := Resolved None;
     upsert_neighborhoods := Resolved None;
     clock := sampleClock |}.

(** Signed in, and the profile row is already there. *)
Definition alreadyOnboarded : Services :=
  {| getSession := Resolved (Some (mkSession sampleUser));
     select_profile :=
       Resolved (Some (profileRow sampleUser sampleForm "t0" "t0"));
     getUser := Resolved (Some sampleUser);
     upsert_user_profiles := Resolved None;
     upsert_neighborhoods := Resolved None;
     clock := sampleClock |}.

(** *** The rest of the rendered form *)

(** The text of the submit button:
    [isSubmitting ? 'Saving...' : step === 3 ? 'Complete' : 'Next']. *)
Definition submitLabel (s : UIState) : string :=
  if isSubmitting s then "Saving..."
  else if step s =? 3 then "Complete" else "Next".

(** Every rendered control that is [required] (the text inputs and the
    select of the step) has a value: the browser then lets a press on the
    submit button fire the submit event of the form, and holds it back
    otherwise. *)
Definition requiredFilled (s : UIState) : bool :=
  forallb (λ c, match getField c.1 (formData s) with
                | VString v => negb (bool_decide (v = ""))
                | VStrings _ => true
                end)
          (filter (λ c, c.2 ≠ CheckboxGroup) (controls (step s))).

(** [checked] of the checkbox rendered for an interest label. *)
Definition checked (fd : FormData) (label : string) : bool :=
  includes (interests fd) (toLowerCase label).

(** The submission goes through: a user is there and both upserts are
    answered without an error. *)
Definition submission_succeeds (env : Services) : Prop :=
  (∃ u, getUser env = Resolved (Some u)) ∧ both_upserts_succeed env.

(** **** More sample inputs *)

Definition stepTwo : UIState :=
  {| step := 2; isSubmitting := false; error := Some "No user found";
     formData := sampleForm |}.

(** The user is there, and the store answers the profile upsert with an
    error object that has a message. *)
Definition profileUpsertDenied : Services :=
  {| getSession := Resolved (Some (mkSession sampleUser));
     select_profile := Resolved None;
     getUser := Resolved (Some sampleUser);
     upsert_user_profiles := Resolved (Some (ErrorObject "permission denied"));
     upsert_neighborhoods := Resolved None;
     clock := sampleClock |}.

(** A store that already holds the rows of another user. *)
Definition otherUsersRows : Database :=
  {| user_profiles :=
       {[ "user-2" := profileRow (mkUser "user-2") initialFormData "t0" "t0" ]};
     neighborhoods :=
       {[ "user-2" := neighborhoodRow (mkUser "user-2") initialFormData
                        "t0" "t0" ]} |}.

End Onboarding.

Module NeighborhoodMap.

(** *** Strings *)

(** [String.prototype.includes]: [sub] occurs somewhere in [s]. *)
Fixpoint includes (sub s : string) : bool :=
  if String.prefix sub s then true
  else match s with
       | EmptyString => false
       | String _ s' => includes sub s'
       end.

(** The double quote character, for the popup markup. *)
Definition dquote : string := String (ascii_of_nat 34) EmptyString.

(** [[a, b, c].filter(Boolean)]: [undefined] and the empty string go. *)
Definition filterBoolean (l : list (option string)) : list string :=
  omap (λ o, match o with
             | Some s => if decide (s = "") then None else Some s
             | None => None
             end) l.

Section Component.

(** JavaScript numbers are only carried from the geocoding response to the
    SDK; the component does no arithmetic on them. *)
Context {number : Type}.

(** [String.prototype.toLowerCase] of the runtime. *)
Variable toLowerCase : string → string.

(** The literal [[-74.5, 40]] the map is first centred on. *)
Variable defaultCenter : number * number.

(** *** Data model *)

Record NeighborhoodMapProps : Type := mkProps {
  neighborhoodName : string;
  address : string;
  city : option string;
  state : option string
}.

Record MapboxContext : Type := mkContext {
  id : string;
  text : string
}.

Record MapboxFeature : Type := mkFeature {
  center : number * number;
  context : option (list MapboxContext)
}.

(** The parsed body of a geocoding response. *)
Record GeocodingData : Type := mkData {
  features : option (list MapboxFeature)
}.

(** The query the component sends: the path segment that is
    URI-encoded, and the parameters in insertion order. *)
Record Request : Type := mkRequest {
  endpoint : string;
  query : string;
  queryParams : list (string * string)
}.

(** *** The part of the mapping SDK the component drives *)

Inductive LayerType : Type := circle | fill | line.

Record Layer : Type := mkLayer {
  layer_id : string;
  layer_type : LayerType;
  layer_source : string;
  source_layer : option string;
  paint : list (string * string);
  (** [['==', ['get', property], level]] *)
  layer_filter : option (string * Z)
}.

Inductive Source : Type :=
  | StyleSource                         (* defined by the base style *)
  | GeoJSONPoint (coordinates : number * number)
  | VectorSource (url : string).

Record Marker : Type := mkMarker {
  lngLat : number * number;
  popupOffset : Z;
  popupHTML : string
}.

Record Camera : Type := mkCamera {
  cameraCenter : number * number;
  zoom : Z;
  (** milliseconds of the flight that led here, if any *)
  duration : option Z
}.

Record MapState : Type := mkMap {
  style : string;
  camera : Camera;
  mapControls : list string;
  sources : list (string * Source);
  layers : list Layer;
  markers : list Marker;
  (** the ['load'] listeners, each with the coordinates it closes over *)
  loadHandlers : list (number * number);
  loaded : bool;
  removed : bool
}.

Definition getSource (m : MapState) (name : string) : bool :=
  bool_decide (name ∈ (sources m).*1).

Definition getLayer (m : MapState) (name : string) : bool :=
  bool_decide (name ∈ layer_id <$> layers m).

Definition addSource (name : string) (s : Source) (m : MapState) : MapState :=
  mkMap (style m) (camera m) (mapControls m) (sources m ++ [(name, s)])
        (layers m) (markers m) (loadHandlers m) (loaded m) (removed m).

Definition removeSource (name : string) (m : MapState) : MapState :=
  mkMap (style m) (camera m) (mapControls m)
        (filter (λ s, s.1 ≠ name) (sources m))
        (layers m) (markers m) (loadHandlers m) (loaded m) (removed m).

Definition addLayer (l : Layer) (m : MapState) : MapState :=
  mkMap (style m) (camera m) (mapControls m) (sources m)
        (layers m ++ [l]) (markers m) (loadHandlers m) (loaded m) (removed m).

Definition removeLayer (name : string) (m : MapState) : MapState :=
  mkMap (style m) (camera m) (mapControls m) (sources m)
        (filter (λ l, layer_id l ≠ name) (layers m))
        (markers m) (loadHandlers m) (loaded m) (removed m).

Definition addControl (c : string) (m : MapState) : MapState :=
  mkMap (style m) (camera m) (c :: mapControls m) (sources m)
        (layers m) (markers m) (loadHandlers m) (loaded m) (removed m).

Definition flyTo (c : number * number) (z d : Z) (m : MapState) : MapState :=
  mkMap (style m) (mkCamera c z (Some d)) (mapControls m) (sources m)
        (layers m) (markers m) (loadHandlers m) (loaded m) (removed m).

Definition addMarker (k : Marker) (m : MapState) : MapState :=
  mkMap (style m) (camera m) (mapControls m) (sources m)
        (layers m) (markers m ++ [k]) (loadHandlers m) (loaded m) (removed m).

Definition onLoad (c : number * number) (m : MapState) : MapState :=
  mkMap (style m) (camera m) (mapControls m) (sources m)
        (layers m) (markers m) (loadHandlers m ++ [c]) (loaded m) (removed m).

Definition setLoaded (m : MapState) : MapState :=
  mkMap (style m) (camera m) (mapControls m) (sources m)
        (layers m) (markers m) (loadHandlers m) true (removed m).

Definition remove (m : MapState) : MapState :=
  mkMap (style m) (camera m) (mapControls m) (sources m)
        (layers m) (markers m) (loadHandlers m) (loaded m) true.

(** What the page is given by the browser and the vendor. *)
Record Browser : Type := mkBrowser {
  NEXT_PUBLIC_MAPBOX_TOKEN : option string;
  (** names of the sources the base style defines *)
  style_sources : list string;
  (** [navigator.geolocation] is there *)
  geolocation : bool;
  (** [encodeURIComponent s] returns; it throws a [URIError] when [s]
      holds a lone surrogate *)
  uriEncodable : string → bool
}.

(** [new mapboxgl.Map({ container, style, center, zoom })]. *)
Definition newMap (b : Browser) : MapState :=
  {| style := "mapbox://styles/mapbox/streets-v12";
     camera := mkCamera defaultCenter 12 None;
     mapControls := [];
     sources := (λ n, (n, StyleSource)) <$> style_sources b;
     layers := [];
     markers := [];
     loadHandlers := [];
     loaded := false;
     removed := false |}.

(** *** The component *)

Inductive Event : Type :=
  | EFetch (r : Request)
  | EConsoleLog (label : string)
  | EConsoleError (label : string)
  | ESetError (message : string)
  | EGetCurrentPosition.

(** What the component returns to the framework. *)
Inductive View : Type :=
  | Alert (message : string)   (* the red box with the error text *)
  | MapDiv.                    (* the div the map is drawn into *)

Record World : Type := mkWorld {
  error : option string;              (* useState *)
  mapContainer : bool;                (* mapContainer.current is an element *)
  map : option MapState;              (* map.current *)
  deps : NeighborhoodMapProps;        (* dependencies of the last effect *)
  cleanup : bool;                     (* the last effect returned a cleanup *)
  (** calls of [geocodeAddress] waiting for their response, oldest first,
      each with the props its closure holds *)
  pending : list NeighborhoodMapProps;
  log : list Event
}.

Definition render (w : World) : View :=
  match error w with
  | Some e => Alert e
  | None => MapDiv
  end.

Definition emit (evs : list Event) (w : World) : World :=
  mkWorld (error w) (mapContainer w) (map w) (deps w) (cleanup w)
          (pending w) (log w ++ evs).

Definition setError (msg : string) (w : World) : World :=
  mkWorld (Some msg) (mapContainer w) (map w) (deps w) (cleanup w)
          (pending w) (log w ++ [ESetError msg]).

Definition setMap (m : option MapState) (w : World) : World :=
  mkWorld (error w) (mapContainer w) m (deps w) (cleanup w)
          (pending w) (log w).

(** [map.current?.f(...)]: nothing happens on a null ref. *)
Definition onMap (f : MapState → MapState) (w : World) : World :=
  setMap (f <$> map w) w.

Definition getUserLocation (b : Browser) (w : World) : World :=
  if geolocation b then emit [EGetCurrentPosition] w
  else emit [EConsoleError "Geolocation is not supported by this browser."] w.

(** **** [geocodeAddress] *)

Definition fullAddress (p : NeighborhoodMapProps) : string :=
  String.concat ", " (filterBoolean [Some (address p); city p; state p]).

(** [...(v && { key: v })] *)
Definition spreadIf (key : string) (v : option string)
    : list (string * string) :=
  (λ s, (key, s)) <$> filterBoolean [v].

Definition geocodingRequest (b : Browser) (p : NeighborhoodMapProps)
    : Request :=
  {| endpoint := "https://api.mapbox.com/geocoding/v5/mapbox.places/";
     query := fullAddress p;
     queryParams :=
       [("access_token", default "" (NEXT_PUBLIC_MAPBOX_TOKEN b));
        ("country", "US");
        ("types", "address");
        ("limit", "1");
        ("language", "en")]
       ++ spreadIf "place" (city p)
       ++ spreadIf "region" (state p)
       ++ [("bbox", "-112.5,40.0,-111.5,41.0")] |}.

(** [feature.context?.find(ctx => ctx.id.includes(kind))?.text] *)
Definition contextText (kind : string) (f : MapboxFeature) : option string :=
  ctxs ← context f;
  text <$> List.find (λ ctx, includes kind (id ctx)) ctxs.

Definition featureCity : MapboxFeature → option string := contextText "place".
Definition featureState : MapboxFeature → option string := contextText "region".

(** The callback given to [data.features.find]. *)
Definition isRelevant (p : NeighborhoodMapProps) (f : MapboxFeature) : bool :=
  bool_decide (toLowerCase <$> featureCity f = toLowerCase <$> city p) &&
  bool_decide (toLowerCase <$> featureState f = toLowerCase <$> state p).

(** [data.features.find(...) || data.features[0]] *)
Definition relevantFeature (p : NeighborhoodMapProps)
    (fs : list MapboxFeature) : option MapboxFeature :=
  match List.find (isRelevant p) fs with
  | Some f => Some f
  | None => head fs
  end.

(** **** Matching, said without the callback

    What it means for the context of a feature to match the city and the
    state of the props, written out on its own, to compare [isRelevant]
    with: the text of the first context entry of a kind is the text of
    the first entry whose id contains the name of the kind; two optional
    texts are the same when both are missing or both are there and equal
    once lowered. *)

Fixpoint entryText (kind : string) (ctxs : list MapboxContext)
    : option string :=
  match ctxs with
  | [] => None
  | c :: rest =>
      if includes kind (id c) then Some (text c) else entryText kind rest
  end.

Definition sameIgnoringCase (a b : option string) : Prop :=
  match a, b with
  | Some x, Some y => toLowerCase x = toLowerCase y
  | None, None => True
  | _, _ => False
  end.

Definition contextMatches (p : NeighborhoodMapProps) (f : MapboxFeature)
    : Prop :=
  sameIgnoringCase
    (match context f with Some ctxs => entryText "place" ctxs | None => None end)
    (city p) ∧
  sameIgnoringCase
    (match context f with Some ctxs => entryText "region" ctxs | None => None end)
    (state p).

Definition popup (p : NeighborhoodMapProps) : string :=
  "<h3 class=" +:+ dquote +:+ "font-bold" +:+ dquote +:+ ">" +:+
  neighborhoodName p +:+ "</h3><p>" +:+ fullAddress p +:+ "</p>".

Definition adminLayer (name : string) (t : LayerType)
    (paint : list (string * string)) (level : Z) : Layer :=
  {| layer_id := name;
     layer_type := t;
     layer_source := "admin-boundaries";
     source_layer := Some "admin";
     paint := paint;
     layer_filter := Some ("admin_level", level) |}.

Definition neighborhoodBoundaries : Layer :=
  adminLayer "neighborhood-boundaries" fill
    [("fill-color", "#0080ff"); ("fill-opacity", "0.1");
     ("fill-outline-color", "#0080ff")] 8.

Definition neighborhoodBoundariesLine : Layer :=
  adminLayer "neighborhood-boundaries-line" line
    [("line-color", "#0080ff"); ("line-width", "2");
     ("line-opacity", "0.8")] 8.

Definition cityBoundaries : Layer :=
  adminLayer "city-boundaries" fill
    [("fill-color", "#00ff00"); ("fill-opacity", "0.05");
     ("fill-outline-color", "#00ff00")] 6.

Definition cityBoundariesLine : Layer :=
  adminLayer "city-boundaries-line" line
    [("line-color", "#00ff00"); ("line-width", "2");
     ("line-opacity", "0.5")] 6.

Definition neighborhoodFill : Layer :=
  {| layer_id := "neighborhood-fill";
     layer_type := circle;
     layer_source := "neighborhood";
     source_layer := None;
     paint := [("circle-radius", "1000"); ("circle-color", "#0080ff");
               ("circle-opacity", "0.1"); ("circle-stroke-width", "2");
               ("circle-stroke-color", "#0080ff");
               ("circle-stroke-opacity", "0.5")];
     layer_filter := None |}.

(** The listener registered with [map.current.on('load', ...)]; [c] is
    the [[lng, lat]] of its closure.  It works on [map.current]. *)
Definition loadHandler (b : Browser) (c : number * number) (w : World)
    : World :=
  (* Remove existing sources and layers if they exist *)
  let w1 :=
    match map w with
    | Some m =>
        if getSource m "neighborhood"
        then onMap (removeSource "neighborhood")
               (onMap (removeLayer "neighborhood-fill") w)
        else w
    | None => w
    end in
  (* Add new source and layer for neighborhood circle *)
  let w2 := onMap (addSource "neighborhood" (GeoJSONPoint c)) w1 in
  let w3 := onMap (addLayer neighborhoodFill) w2 in
  (* Add administrative boundaries layer *)
  let w4 :=
    match map w3 with
    | Some m =>
        if negb (getSource m "admin-boundaries")
        then onMap (λ m,
               addLayer cityBoundariesLine
                 (addLayer cityBoundaries
                    (addLayer neighborhoodBoundariesLine
                       (addLayer neighborhoodBoundaries
                          (addSource "admin-boundaries"
                             (VectorSource "mapbox://mapbox.mapbox-streets-v8")
                             m))))) w3
        else w3
    | None => w3
    end in
  (* Get user's location *)
  getUserLocation b w4.

(** [geocodeAddress] up to its [await fetch(...)].  The URL is built
    first, inside the [try]: when [encodeURIComponent(fullAddress)]
    throws, no request is sent and the [catch] block runs at once. *)
Definition geocodeAddress (b : Browser) (p : NeighborhoodMapProps)
    (w : World) : World :=
  let w1 := emit [EConsoleLog "Geocoding address:"] w in
  if uriEncodable b (fullAddress p) then
    let w2 := emit [EFetch (geocodingRequest b p)] w1 in
    mkWorld (error w2) (mapContainer w2) (map w2) (deps w2) (cleanup w2)
            (pending w2 ++ [p]) (log w2)
  else
    setError "Failed to load map data"
      (emit [EConsoleError "Error geocoding address:"] w1).

(** [geocodeAddress] from the settlement of [fetch] and [response.json()]
    on. *)
Definition geocodeAddress_resume (p : NeighborhoodMapProps)
    (o : Outcome GeocodingData) (w : World) : World :=
  match o with
  | Rejected _ =>
      setError "Failed to load map data"
        (emit [EConsoleError "Error geocoding address:"] w)
  | Resolved data =>
      let w1 := emit [EConsoleLog "Geocoding response:"] w in
      match features data with
      | Some (f0 :: fs) =>
          (* Find the most relevant result *)
          match relevantFeature p (f0 :: fs) with
          | Some f =>
              (* Update map center and add marker *)
              match map w1 with
              | Some _ =>
                  onMap (λ m,
                    onLoad (center f)
                      (addMarker (mkMarker (center f) 25 (popup p))
                         (flyTo (center f) 15 2000 m))) w1
              | None => w1
              end
          | None => w1
          end
      | _ =>
          setError "Could not find the specified location"
            (emit [EConsoleError "No features found in geocoding response"] w1)
      end
  end.

(** **** The effect and its cleanup *)

Definition effect (b : Browser) (p : NeighborhoodMapProps) (w : World)
    : World :=
  if negb (mapContainer w)
  then mkWorld (error w) (mapContainer w) (map w) p false (pending w) (log w)
  else
    (* Initialize map, add navigation and location controls *)
    let m := addControl "GeolocateControl"
               (addControl "NavigationControl" (newMap b)) in
    let w1 := mkWorld (error w) (mapContainer w) (Some m) p true
                      (pending w) (log w) in
    (* Geocode the address to get coordinates *)
    geocodeAddress b p w1.

Definition removeLayerIf (name : string) (m : MapState) : MapState :=
  if getLayer m name then removeLayer name m else m.

Definition removeSourceIf (name : string) (m : MapState) : MapState :=
  if getSource m name then removeSource name m else m.

Definition runCleanup (w : World) : World :=
  if cleanup w then
    onMap (λ m,
      remove
        (removeSourceIf "admin-boundaries"
           (removeLayerIf "city-boundaries-line"
              (removeLayerIf "city-boundaries"
                 (removeLayerIf "neighborhood-boundaries-line"
                    (removeLayerIf "neighborhood-boundaries"
                       (removeSourceIf "neighborhood"
                          (removeLayerIf "neighborhood-fill" m)))))))) w
  else w.

(** **** The life of a mounted component *)

#[export] Instance Props_eq_dec : EqDecision NeighborhoodMapProps.
Proof. solve_decision. Defined.

(** The ref follows the rendered view: it holds the div exactly when the
    div is rendered. *)
Definition commit (w : World) : World :=
  mkWorld (error w)
          (match render w with MapDiv => true | Alert _ => false end)
          (map w) (deps w) (cleanup w) (pending w) (log w).

(** First render with [error = null], then the effect. *)
Definition mount (b : Browser) (p : NeighborhoodMapProps) : World :=
  effect b p (commit (mkWorld None false None p false [] [])).

(** A later render: the effect runs again only when one of
    [[address, city, state, neighborhoodName]] has changed. *)
Definition rerender (b : Browser) (p : NeighborhoodMapProps) (w : World)
    : World :=
  let w1 := commit w in
  if decide (deps w1 = p) then w1 else effect b p (runCleanup w1).

(** What happens to a mounted component. *)
Inductive Happening : Type :=
  | Response (o : Outcome GeocodingData)   (* the oldest pending fetch settles *)
  | MapLoad                                (* the map fires ['load'] *)
  | Rerender (p : NeighborhoodMapProps).


Definition is_response (h : Happening) : bool :=
  match h with Response _ => true | _ => false end.

Definition fireLoad (b : Browser) (w : World) : World :=
  match map w with
  | Some m =>
      if loaded m || removed m then w
      else foldl (λ w c, loadHandler b c w) (onMap setLoaded w)
                 (loadHandlers m)
  | None => w
  end.

Definition deliver (b : Browser) (w : World) (h : Happening) : World :=
  match h with
  | Response o =>
      match pending w with
      | p :: rest =>
          geocodeAddress_resume p o
            (mkWorld (error w) (mapContainer w) (map w) (deps w) (cleanup w)
                     rest (log w))
      | [] => w
      end
  | MapLoad => fireLoad b w
  | Rerender p => rerender b p w
  end.

Definition run (b : Browser) (p : NeighborhoodMapProps)
    (hs : list Happening) : World :=
  foldl (deliver b) (mount b p) hs.

Definition fetches (evs : list Event) : list Request :=
  omap (λ e, match e with EFetch r => Some r | _ => None end) evs.

(** [w'] has the error, the dependencies, the pending calls and the
    fetches of [w]. *)
Definition same_frame (w w' : World) : Prop :=
  error w' = error w ∧ deps w' = deps w ∧ pending w' = pending w ∧
  fetches (log w') = fetches (log w).

(** The geocoding call did not yield a feature. *)
Definition geocodingFailed (o : Outcome GeocodingData) : Prop :=
  match o with
  | Rejected _ => True
  | Resolved data =>
      match features data with
      | Some (_ :: _) => False
      | _ => True
      end
  end.

End Component.

(** **** Sample inputs, with numbers written as decimal literals *)

Definition sampleCenter : string * string := ("-74.5", "40").

Definition sampleBrowser : Browser :=
  {| NEXT_PUBLIC_MAPBOX_TOKEN := Some "pk.sample";
     style_sources := ["composite"];
     geolocation := true;
     uriEncodable := isWellFormed |}.

Definition sampleProps : NeighborhoodMapProps :=
  {| neighborhoodName := "Maple Grove"; address := "12 Elm Street";
     city := Some "Provo"; state := Some "Utah" |}.

Definition featureElsewhere : @MapboxFeature string :=
  {| center := ("-111.89", "40.76");
     context := Some [mkContext "place.1" "Salt Lake City";
                      mkContext "region.1" "Utah"] |}.

Definition featureInProvo : @MapboxFeature string :=
  {| center := ("-111.65", "40.23");
     context := Some [mkContext "postcode.7" "84601";
                      mkContext "place.2" "PROVO";
                      mkContext "region.1" "Utah"] |}.

Definition sampleData : @GeocodingData string :=
  {| features := Some [featureElsewhere; featureInProvo] |}.

Definition noFeatures : @GeocodingData string :=
  {| features := Some [] |}.

(** The same neighborhood with another street address. *)
Definition movedProps : NeighborhoodMapProps :=
  {| neighborhoodName := "Maple Grove"; address := "40 Oak Avenue";
     city := Some "Provo"; state := Some "Utah" |}.

(** The same address under another neighborhood name. *)
Definition renamedProps : NeighborhoodMapProps :=
  {| neighborhoodName := "Maple Grove East"; address := "12 Elm Street";
     city := Some "Provo"; state := Some "Utah" |}.

(** A street address that holds a lone surrogate. *)
Definition brokenProps : NeighborhoodMapProps :=
  {| neighborhoodName := "Maple Grove";
     address := "12 Elm Street " +:+ loneSurrogate;
     city := Some "Provo"; state := Some "Utah" |}.

(** Only a street address is known. *)
Definition addressOnly : NeighborhoodMapProps :=
  {| neighborhoodName := "Maple Grove"; address := "12 Elm Street";
     city := None; state := Some "" |}.

(** A feature that comes without any context. *)
Definition bareFeature : @MapboxFeature string :=
  {| center := ("-111.70", "40.30"); context := None |}.

(** The map loads, the geocoding answer has no feature, the widget
    renders again with the same props. *)
Definition sampleHappenings : list (@Happening string) :=
  [MapLoad; Response (Resolved noFeatures); Rerender sampleProps].

End NeighborhoodMap.

Module HamburgerMenu.

(** The menu of the signed-in pages: one [useState] cell and the logout
    handler. *)

Inductive Event : Type :=
  | ESignOut
  | ERouterPush (path : string).

(** [onClick={() => setIsOpen(!isOpen)}] *)
Definition toggleMenu (isOpen : bool) : bool := negb isOpen.

(** The Logout item is inside [{isOpen && (...)}]. *)
Definition logoutRendered (isOpen : bool) : bool := isOpen.

(** [handleLogout]: [await supabase.auth.signOut(); router.push('/')].
    [signOut] is the settlement of the sign-out call, whose answer
    [{ error }] the handler does not look at.  The result is the calls
    made and the value that escapes the handler, if any. *)
Definition handleLogout (signOut : Outcome (option Thrown))
    : list Event * option Thrown :=
  match signOut with
  | Resolved _ => ([ESignOut; ERouterPush "/"], None)
  | Rejected t => ([ESignOut], Some t)
  end.

End HamburgerMenu.

Module AuthRoute.

(** The callbacks given to the authentication library in the route
    handler.  A token is an object of claims; only its [id] is written. *)

(** [pages.signIn] *)
Definition signInPage : string := "/auth/login".

(** [async jwt({ token, user })]: persist the user id to the token.
    [user] is the [id] of the user object, when the call comes with
    one. *)
Definition jwt (token : gmap string string) (user : option string)
    : gmap string string :=
  match user with
  | Some user_id => <["id" := user_id]> token
  | None => token
  end.

(** [async session({ session })] *)
Definition session {A : Type} (s : A) : A := s.

End AuthRoute.

(** * Properties of the onboarding page *)

Module OnboardingProofs.
Import Onboarding.

(** ** Interests *)

Lemma includes_elem_of (l : list string) (x : string) :
  includes l x = true ↔ x ∈ l.
Proof.
  induction l as [|y l IH]; simpl.
  - split; [discriminate | intros H; inversion H].
  - destruct (decide (y = x)) as [->|Hne].
    + split; [intros _; left | done].
    + rewrite IH. split; [by right |].
      intros H. apply elem_of_cons in H as [->|H]; done.
Qed.

Lemma includes_false (l : list string) (x : string) :
  includes l x = false ↔ x ∉ l.
Proof.
  rewrite <- includes_elem_of. destruct (includes l x); split; done.
Qed.

Lemma toggle_present (i : string) (l : list string) :
  i ∈ l → toggleInterest i l = filter (λ j, j ≠ i) l.
Proof.
  intros H. unfold toggleInterest.
  apply includes_elem_of in H. by rewrite H.
Qed.

Lemma toggle_absent (i : string) (l : list string) :
  i ∉ l → toggleInterest i l = l ++ [i].
Proof.
  intros H. unfold toggleInterest.
  apply includes_false in H. by rewrite H.
Qed.

Lemma filter_ne_absent (i : string) (l : list string) :
  i ∉ l → filter (λ j, j ≠ i) l = l.
Proof.
  induction l as [|y l IH]; [done|].
  intros H. apply not_elem_of_cons in H as [Hne Hl].
  rewrite filter_cons_True by done. by rewrite IH.
Qed.

Lemma not_in_filter_ne (i : string) (l : list string) :
  i ∉ filter (λ j, j ≠ i) l.
Proof. intros H. apply list_elem_of_filter in H as [H _]. done. Qed.

Lemma filter_ne_snoc (i : string) (l : list string) :
  filter (λ j, j ≠ i) (l ++ [i]) = filter (λ j, j ≠ i) l.
Proof.
  rewrite filter_app. rewrite filter_cons_False by (intros H; by apply H).
  rewrite filter_nil. apply app_nil_r.
Qed.

Lemma filter_ne_perm (i : string) (l : list string) :
  NoDup l → i ∈ l → filter (λ j, j ≠ i) l ++ [i] ≡ₚ l.
Proof.
  induction 1 as [|y l Hy Hnd IH]; intros Hi; [by inversion Hi|].
  destruct (decide (y = i)) as [->|Hne].
  - rewrite filter_cons_False by (intros H; by apply H).
    rewrite filter_ne_absent by done.
    symmetry. apply Permutation_cons_append.
  - rewrite filter_cons_True by done.
    apply elem_of_cons in Hi as [->|Hi]; [done|].
    simpl. by rewrite IH.
Qed.

Lemma toggle_twice (i : string) (l : list string) :
  toggleInterest i (toggleInterest i l) =
  if includes l i then filter (λ j, j ≠ i) l ++ [i] else l.
Proof.
  destruct (includes l i) eqn:E.
  - apply includes_elem_of in E.
    rewrite (toggle_present i l E).
    by rewrite toggle_absent by apply not_in_filter_ne.
  - apply includes_false in E.
    rewrite (toggle_absent i l E).
    rewrite toggle_present by (apply elem_of_app; right; left).
    rewrite filter_ne_snoc. by apply filter_ne_absent.
Qed.

(** C9, as the code has it.  On an interests list without duplicates,
    toggling [i] flips the membership of [i] and of nothing else: [i] is
    removed when present and appended when absent, the list stays free of
    duplicates, and the other elements keep their relative order.
    Toggling twice gives back the same elements: the original list when
    [i] was absent, and the original list with [i] moved to the end when
    it was present. *)
Theorem handleInterestToggle_flips (fd : FormData) (i : string) :
  NoDup (interests fd) →
  let l := interests fd in
  let l' := interests (handleInterestToggle i fd) in
  let l'' := interests (handleInterestToggle i (handleInterestToggle i fd)) in
  (i ∈ l' ↔ i ∉ l) ∧
  (i ∈ l → l' = filter (λ j, j ≠ i) l) ∧
  (i ∉ l → l' = l ++ [i]) ∧
  NoDup l' ∧
  filter (λ j, j ≠ i) l' = filter (λ j, j ≠ i) l ∧
  l'' ≡ₚ l ∧
  (i ∉ l → l'' = l) ∧
  (i ∈ l → l'' = filter (λ j, j ≠ i) l ++ [i]).
Proof.
  intros Hnd. simpl.
  set (l := interests fd) in *.
  assert (Hin : i ∈ l → toggleInterest i l = filter (λ j, j ≠ i) l)
    by apply toggle_present.
  assert (Hout : i ∉ l → toggleInterest i l = l ++ [i])
    by apply toggle_absent.
  assert (Htwice := toggle_twice i l).
  split_and!; try done.
  - destruct (decide (i ∈ l)) as [Hi|Hi].
    + rewrite Hin by done. split; [|done].
      intros H. by apply not_in_filter_ne in H.
    + rewrite Hout by done. split; [done|].
      intros _. apply elem_of_app. right. left.
  - destruct (decide (i ∈ l)) as [Hi|Hi].
    + rewrite Hin by done. by apply NoDup_filter.
    + rewrite Hout by done. apply NoDup_app. split_and!; [done| |].
      * intros x Hx Hxi. apply list_elem_of_singleton in Hxi. by subst.
      * apply NoDup_singleton.
  - destruct (decide (i ∈ l)) as [Hi|Hi].
    + rewrite Hin by done. apply list_filter_filter_l. done.
    + rewrite Hout by done. apply filter_ne_snoc.
  - rewrite Htwice. destruct (includes l i) eqn:E; [|done].
    apply filter_ne_perm; [done|]. by apply includes_elem_of.
  - intros Hi. rewrite Htwice. apply includes_false in Hi. by rewrite Hi.
  - intros Hi. rewrite Htwice. apply includes_elem_of in Hi. by rewrite Hi.
Qed.

Lemma handleInterestToggle_flips_witness :
  NoDup (interests sampleForm) ∧
  interests (handleInterestToggle "events"
               (handleInterestToggle "events" sampleForm))
    ≡ₚ interests sampleForm.
Proof.
  assert (H : NoDup (interests sampleForm))
    by (apply (bool_decide_unpack _); vm_compute; exact I).
  split; [exact H|].
  exact (proj1 (proj2 (proj2 (proj2 (proj2 (proj2
           (handleInterestToggle_flips sampleForm "events" H))))))).
Defined.

(** C9 as stated fails: toggling an interest that is present, and not the
    last one, twice moves it to the end of the list. *)
Lemma toggle_twice_moves_interest :
  NoDup (interests sampleForm) ∧
  interests (handleInterestToggle "events"
               (handleInterestToggle "events" sampleForm))
    = ["safety"; "events"] ∧
  interests (handleInterestToggle "events"
               (handleInterestToggle "events" sampleForm))
    ≠ interests sampleForm.
Proof.
  split_and!.
  - apply (bool_decide_unpack _). vm_compute. exact I.
  - reflexivity.
  - discriminate.
Qed.

(** ** Running a submission *)

(** Unfold a handler down to the monad and compute. *)
Ltac run_handler :=
  unfold act, perform, handleSubmit, checkAuth, submitBody, submitCatch,
    try_catch_finally, upsertProfile, upsertNeighborhood, setFormData,
    setStep, setIsSubmitting, setError, routerPush, now, await, emit,
    modify_ui, modify_db, throw, mbind, M_bind, mret, M_ret in *;
  cbn in *.

(** Split on every answer the services can give to a submission. *)
Ltac split_answers env :=
  destruct env as [? ? [[?|]|[?|]] [[[?|]|]|[?|]] [[[?|]|]|[?|]] ?];
  cbn in *.

Example submit_ok_trace :
  let r := handleSubmit finalStep servicesOk (emptyWorld finalStep) in
  service_calls r.2 =
    ["auth.getUser"; "user_profiles.upsert"; "neighborhoods.upsert"] ∧
  redirects r.2 = ["/dashboard"] ∧
  error (ui r.1.2) = None ∧
  isSubmitting (ui r.1.2) = false ∧
  p_created_at <$> user_profiles (db r.1.2) !! "user-1" =
    Some "2024-01-01T00:00:00Z" ∧
  n_updated_at <$> neighborhoods (db r.1.2) !! "user-1" =
    Some "2024-01-01T00:00:03Z".
Proof. vm_compute. repeat split. Qed.

Example submit_signed_out_trace :
  (handleSubmit finalStep signedOut (emptyWorld finalStep)).2 =
    [EPreventDefault; ESetIsSubmitting true; ESetError None; EGetUser;
     EConsoleError "Error saving profile:";
     ESetError (Some "No user found"); ESetIsSubmitting false].
Proof. reflexivity. Qed.

(** Below the last step a submit only moves to the next step. *)
Lemma handleSubmit_next (s : UIState) (env : Services) (w : World) :
  step s < 3 →
  handleSubmit s env w =
    (Val (),
     mkWorld (mkUI (step s + 1) (isSubmitting (ui w)) (error (ui w))
                   (formData (ui w))) (db w) (ticks w),
     [EPreventDefault; ESetStep (step s + 1)]).
Proof.
  intros H. unfold handleSubmit.
  apply Z.ltb_lt in H. rewrite H. by run_handler.
Qed.

(** On the last step a submit leaves the step and the form data alone,
    and clears the submitting flag when it is done. *)
Lemma handleSubmit_last_ui (s : UIState) (env : Services) (w : World) :
  ¬ step s < 3 →
  let w' := (handleSubmit s env w).1.2 in
  step (ui w') = step (ui w) ∧
  formData (ui w') = formData (ui w) ∧
  isSubmitting (ui w') = false.
Proof.
  intros H. unfold handleSubmit.
  apply Z.ltb_nlt in H. rewrite H.
  split_answers env; by run_handler.
Qed.

(** ** The step counter *)

(** C10.  Every state the page can reach from its mount has its step
    between 1 and 3: a submit adds one only below 3, and Back, which is
    there only above 1, takes one away. *)
Theorem step_in_range (w : World) :
  reachable w → 1 ≤ step (ui w) ≤ 3.
Proof.
  induction 1 as [d t|w a Hw IH Hen]; [simpl; lia|].
  destruct a as [env| |name value|interest]; simpl in Hen.
  - destruct (decide (step (ui w) < 3)) as [Hlt|Hge].
    + unfold act, perform. rewrite handleSubmit_next by done. simpl. lia.
    + destruct (handleSubmit_last_ui (ui w) env w Hge) as (Hs & _ & _).
      unfold act, perform.
      destruct (handleSubmit (ui w) env w) as [[r w'] evs]. simpl in *. lia.
  - apply Z.ltb_lt in Hen. run_handler. lia.
  - by run_handler.
  - by run_handler.
Qed.

Lemma step_in_range_witness :
  reachable (act Back (act (Submit servicesOk) (emptyWorld initialUI)).1).1 ∧
  1 ≤ step (ui (act Back
                  (act (Submit servicesOk) (emptyWorld initialUI)).1).1) ≤ 3.
Proof.
  assert (H : reachable
                (act Back (act (Submit servicesOk) (emptyWorld initialUI)).1).1).
  { apply reachable_act; [|reflexivity].
    apply reachable_act; [|reflexivity].
    apply reachable_mount. }
  split; [exact H | exact (step_in_range _ H)].
Defined.

(** ** The final submission *)

(** C1, as the code has it.  When submit is pressed on the final step
    with an authenticated user, the handler sends the [user_profiles]
    upsert, and sends the [neighborhoods] upsert after it exactly when the
    first one succeeded: two upserts at most, never the second without the
    first.  It redirects, and then to the dashboard, if and only if both
    upserts succeed, in which case one row has been written to each
    table. *)
Theorem final_submit_upserts (s : UIState) (env : Services) (w : World)
    (u : User) :
  step s = 3 →
  getUser env = Resolved (Some u) →
  let evs := (handleSubmit s env w).2 in
  let w' := (handleSubmit s env w).1.2 in
  upsert_tables evs =
    "user_profiles" ::
    (if succeeded (upsert_user_profiles env) then ["neighborhoods"] else []) ∧
  ("/dashboard" ∈ redirects evs ↔ both_upserts_succeed env) ∧
  (∀ p, p ∈ redirects evs → p = "/dashboard") ∧
  (both_upserts_succeed env →
   user_profiles (db w') =
     <[id u := profileRow u (formData s) (clock env (ticks w))
                          (clock env (S (ticks w)))]> (user_profiles (db w)) ∧
   neighborhoods (db w') =
     <[id u := neighborhoodRow u (formData s) (clock env (S (S (ticks w))))
                               (clock env (S (S (S (ticks w)))))]>
       (neighborhoods (db w))).
Proof.
  intros Hs Hu. unfold handleSubmit, both_upserts_succeed.
  rewrite Hs. change (3 <? 3) with false. cbv iota.
  split_answers env; simplify_eq; run_handler;
    (split_and!;
     [ reflexivity
     | split;
       [ intros Hin; first [ by apply elem_of_nil in Hin | done ]
       | intros [? ?]; first [ discriminate | by left ] ]
     | intros p Hin; first [ by apply elem_of_nil in Hin
                           | by apply list_elem_of_singleton in Hin ]
     | intros [? ?]; (done || (split; reflexivity)) ]).
Qed.

Lemma final_submit_upserts_witness :
  step finalStep = 3 ∧
  getUser servicesOk = Resolved (Some sampleUser) ∧
  upsert_tables (handleSubmit finalStep servicesOk (emptyWorld finalStep)).2
    = ["user_profiles"; "neighborhoods"].
Proof.
  split_and!; [reflexivity | reflexivity |].
  exact (proj1 (final_submit_upserts finalStep servicesOk
                  (emptyWorld finalStep) sampleUser eq_refl eq_refl)).
Defined.

(** C1 as stated fails: when the store refuses the profile row, the
    handler stops after that single upsert; the [neighborhoods] upsert is
    never sent. *)
Lemma one_upsert_when_profile_fails :
  step finalStep = 3 ∧
  getUser profileUpsertFails = Resolved (Some sampleUser) ∧
  upsert_tables
    (handleSubmit finalStep profileUpsertFails (emptyWorld finalStep)).2
    = ["user_profiles"] ∧
  length (filter (λ e, is_upsert e = true)
            (handleSubmit finalStep profileUpsertFails
               (emptyWorld finalStep)).2) ≠ 2%nat.
Proof. split_and!; [reflexivity..|]. vm_compute. discriminate. Qed.

(** [raises] lists exactly what the [try] block can throw. *)
Lemma submitBody_raises (fd : FormData) (env : Services) (w : World)
    (t : Thrown) :
  (submitBody fd env w).1.1 = Exn t ↔ raises env t.
Proof.
  split.
  - split_answers env; run_handler; intros H; simplify_eq;
      first [ eapply raises_getUser; reflexivity
            | eapply raises_no_user; reflexivity
            | eapply raises_profile; reflexivity
            | eapply raises_neighborhood; reflexivity ].
  - intros [t' H|H|u t' Hu H|u t' Hu Hp H];
      split_answers env; simplify_eq; by run_handler.
Qed.

(** C3.  Whatever error a final-step submission raises, the handler
    only shows its message: the error text is stored for display, the
    submitting flag is back to false, nothing is redirected, and no
    service is called a second time (the calls made are an initial part
    of getUser, profile upsert, neighborhood upsert). *)
Theorem submission_error_is_displayed (s : UIState) (env : Services)
    (w : World) (t : Thrown) :
  step s = 3 →
  raises env t →
  let evs := (handleSubmit s env w).2 in
  let w' := (handleSubmit s env w).1.2 in
  (handleSubmit s env w).1.1 = Val () ∧
  error (ui w') = Some (errorMessage t) ∧
  ESetError (Some (errorMessage t)) ∈ evs ∧
  isSubmitting (ui w') = false ∧
  redirects evs = [] ∧
  service_calls evs `prefix_of`
    ["auth.getUser"; "user_profiles.upsert"; "neighborhoods.upsert"].
Proof.
  intros Hs Hr. unfold handleSubmit.
  rewrite Hs. change (3 <? 3) with false. cbv iota.
  destruct Hr as [t' H|H|u t' Hu H|u t' Hu Hp H];
    split_answers env; simplify_eq; run_handler;
    (split_and!;
     [ reflexivity | reflexivity
     | repeat first [ by left | right ]
     | reflexivity | reflexivity
     | eexists; reflexivity ]).
Qed.

Lemma submission_error_is_displayed_witness :
  step finalStep = 3 ∧
  raises signedOut (ErrorObject "No user found") ∧
  error (ui (handleSubmit finalStep signedOut (emptyWorld finalStep)).1.2)
    = Some "No user found".
Proof.
  assert (H : raises signedOut (ErrorObject "No user found"))
    by (apply raises_no_user; reflexivity).
  split_and!; [reflexivity | exact H |].
  exact (proj1 (proj2 (submission_error_is_displayed finalStep signedOut
                         (emptyWorld finalStep) _ eq_refl H))).
Defined.

(** C8.  The two upserts are not one transaction: when the profile
    upsert succeeds and the neighborhood upsert then fails, the profile
    row is in [user_profiles] at the end of the handler, the
    [neighborhoods] table is as before, the error is displayed and
    nothing is redirected. *)
Theorem profile_row_survives (s : UIState) (env : Services) (w : World)
    (u : User) (t : Thrown) :
  step s = 3 →
  getUser env = Resolved (Some u) →
  succeeded (upsert_user_profiles env) = true →
  failure (upsert_neighborhoods env) = Some t →
  let evs := (handleSubmit s env w).2 in
  let w' := (handleSubmit s env w).1.2 in
  user_profiles (db w') !! id u =
    Some (profileRow u (formData s) (clock env (ticks w))
                     (clock env (S (ticks w)))) ∧
  neighborhoods (db w') = neighborhoods (db w) ∧
  error (ui w') = Some (errorMessage t) ∧
  redirects evs = [].
Proof.
  intros Hs Hu Hp Hn. unfold handleSubmit.
  rewrite Hs. change (3 <? 3) with false. cbv iota.
  split_answers env; simplify_eq; run_handler;
    (split_and!; [ apply lookup_insert_eq | reflexivity.. ]).
Qed.

Lemma profile_row_survives_witness :
  step finalStep = 3 ∧
  getUser neighborhoodUpsertFails = Resolved (Some sampleUser) ∧
  succeeded (upsert_user_profiles neighborhoodUpsertFails) = true ∧
  failure (upsert_neighborhoods neighborhoodUpsertFails) = Some NonError ∧
  redirects
    (handleSubmit finalStep neighborhoodUpsertFails (emptyWorld finalStep)).2
    = [].
Proof.
  split_and!; [reflexivity..|].
  exact (proj2 (proj2 (proj2
           (profile_row_survives finalStep neighborhoodUpsertFails
              (emptyWorld finalStep) sampleUser NonError
              eq_refl eq_refl eq_refl eq_refl)))).
Defined.

(** ** Authentication comes first *)

(** C6.  When the page loads without an active session, the load asks
    for the session, redirects to the login page and does nothing else:
    no upsert is sent and the world is untouched; and a final submit with
    no user sends no upsert either.  When the session is there and the
    profile query returns a row, the load redirects to the dashboard. *)
Theorem checkAuth_redirects (env : Services) (w : World) :
  (getSession env = Resolved None →
   (checkAuth env w).2 = [EGetSession; ERouterPush "/auth/login"] ∧
   upsert_tables (checkAuth env w).2 = [] ∧
   (checkAuth env w).1.2 = w) ∧
  (∀ session row,
     getSession env = Resolved (Some session) →
     select_profile env = Resolved (Some row) →
     redirects (checkAuth env w).2 = ["/dashboard"]) ∧
  (∀ s,
     getUser env = Resolved None →
     upsert_tables (handleSubmit s env w).2 = [] ∧
     db (handleSubmit s env w).1.2 = db w).
Proof.
  split_and!.
  - intros H. destruct env; simplify_eq/=. by run_handler.
  - intros session row H1 H2. destruct env; simplify_eq/=. by run_handler.
  - intros s H. unfold handleSubmit.
    destruct (step s <? 3); split_answers env; simplify_eq; by run_handler.
Qed.

Lemma checkAuth_redirects_witness :
  getSession signedOut = Resolved None ∧
  (checkAuth signedOut (emptyWorld initialUI)).2
    = [EGetSession; ERouterPush "/auth/login"] ∧
  getSession alreadyOnboarded = Resolved (Some (mkSession sampleUser)) ∧
  redirects (checkAuth alreadyOnboarded (emptyWorld initialUI)).2
    = ["/dashboard"].
Proof.
  split_and!.
  - reflexivity.
  - exact (proj1 (proj1 (checkAuth_redirects signedOut
                           (emptyWorld initialUI)) eq_refl)).
  - reflexivity.
  - exact (proj1 (proj2 (checkAuth_redirects alreadyOnboarded
                           (emptyWorld initialUI))) _ _ eq_refl eq_refl).
Defined.

(** ** Fields and steps *)






(** C7.  Over its three steps the form gathers between four and six
    distinct fields: all six keys of [FormData], each once. *)
Theorem collected_fields_in_range :
  (4 ≤ length collectedFields ≤ 6)%nat ∧
  NoDup collectedFields ∧
  (∀ k : FieldKey, k ∈ collectedFields).
Proof.
  split; [|split].
  - vm_compute. lia.
  - apply NoDup_remove_dups.
  - intros k. destruct k; apply (bool_decide_unpack _); vm_compute; exact I.
Qed.

End OnboardingProofs.

(** * Properties of the map widget *)

Module NeighborhoodMapProofs.
Import NeighborhoodMap.

Example run_sample :
  let w := run toLowerCase sampleCenter sampleBrowser sampleProps
             [Response (Resolved sampleData); MapLoad] in
  fetches (log w) = [geocodingRequest sampleBrowser sampleProps] ∧
  (markers <$> map w) =
    Some [mkMarker (center featureInProvo) 25 (popup sampleProps)] ∧
  (fmap layer_id <$> (layers <$> map w)) =
    Some ["neighborhood-fill"; "neighborhood-boundaries";
          "neighborhood-boundaries-line"; "city-boundaries";
          "city-boundaries-line"] ∧
  error w = None.
Proof. vm_compute. repeat split. Qed.

Example run_sample_failure :
  let w := run toLowerCase sampleCenter sampleBrowser sampleProps
             [MapLoad; Response (Resolved noFeatures);
              Rerender sampleProps; Response (Rejected NonError)] in
  fetches (log w) = [geocodingRequest sampleBrowser sampleProps] ∧
  render w = Alert "Could not find the specified location".
Proof. vm_compute. repeat split. Qed.

Section Proofs.

Context {number : Type}.
Variable toLowerCase : string → string.
Variable defaultCenter : number * number.

Local Abbreviation World := (@World number).
Local Abbreviation Happening := (@Happening number).
Local Abbreviation MapboxFeature := (@MapboxFeature number).
Local Abbreviation GeocodingData := (@GeocodingData number).
Local Abbreviation MapState := (@MapState number).
Local Abbreviation deliver := (deliver toLowerCase defaultCenter).
Local Abbreviation run := (run toLowerCase defaultCenter).

(** ** What each happening leaves alone *)

Lemma fetches_app (l1 l2 : list Event) :
  fetches (l1 ++ l2) = fetches l1 ++ fetches l2.
Proof. apply omap_app. Qed.

Lemma same_frame_refl (w : World) : same_frame w w.
Proof. by repeat split. Qed.

Lemma same_frame_trans (w1 w2 w3 : World) :
  same_frame w1 w2 → same_frame w2 w3 → same_frame w1 w3.
Proof.
  intros (? & ? & ? & ?) (? & ? & ? & ?). repeat split; congruence.
Qed.

Lemma onMap_frame (f : MapState → MapState) (w : World) :
  same_frame w (onMap f w).
Proof. by repeat split. Qed.

Lemma getUserLocation_frame (b : Browser) (w : World) :
  same_frame w (getUserLocation b w).
Proof.
  unfold getUserLocation. destruct (geolocation b); repeat split; simpl;
    by rewrite fetches_app, app_nil_r.
Qed.

Lemma loadHandler_frame (b : Browser) (c : number * number) (w : World) :
  same_frame w (loadHandler b c w).
Proof.
  unfold loadHandler.
  eapply same_frame_trans; [|apply getUserLocation_frame].
  repeat match goal with
         | |- same_frame _ (match ?x with _ => _ end) => destruct x
         | |- same_frame _ (onMap _ _) =>
             eapply same_frame_trans; [|apply onMap_frame]
         end;
    apply same_frame_refl.
Qed.

Lemma fireLoad_frame (b : Browser) (w : World) :
  same_frame w (fireLoad b w).
Proof.
  unfold fireLoad. destruct (map w) as [m|]; [|apply same_frame_refl].
  destruct (loaded m || removed m); [apply same_frame_refl|].
  eapply same_frame_trans; [apply (onMap_frame setLoaded)|].
  generalize (onMap setLoaded w). clear w.
  induction (loadHandlers m) as [|c cs IH]; intros w; simpl.
  - apply same_frame_refl.
  - eapply same_frame_trans; [apply (loadHandler_frame b c)|apply IH].
Qed.

Lemma rerender_frame (b : Browser) (w : World) :
  same_frame w (rerender defaultCenter b (deps w) w).
Proof.
  unfold rerender. simpl. destruct (decide _) as [_|H]; [|done].
  by repeat split.
Qed.

Lemma deliver_quiet (b : Browser) (w : World) (h : Happening) :
  (∀ o, h ≠ Response o) →
  (∀ p, h = Rerender p → p = deps w) →
  same_frame w (deliver b w h).
Proof.
  intros Hr Hp. destruct h as [o| |p]; simpl.
  - by destruct (Hr o).
  - apply fireLoad_frame.
  - rewrite (Hp p eq_refl). apply rerender_frame.
Qed.

Lemma deliver_response_idle (b : Browser) (w : World)
    (o : Outcome GeocodingData) :
  pending w = [] → deliver b w (Response o) = w.
Proof. intros H. simpl. by rewrite H. Qed.

(** The settlement of a pending call: no new fetch, and on failure one
    of the two error texts. *)
Lemma deliver_response (b : Browser) (w : World) (o : Outcome GeocodingData)
    (p : NeighborhoodMapProps) (rest : list NeighborhoodMapProps) :
  pending w = p :: rest →
  let w' := deliver b w (Response o) in
  pending w' = rest ∧ deps w' = deps w ∧
  fetches (log w') = fetches (log w) ∧
  (geocodingFailed o →
   ∃ msg, error w' = Some msg ∧
          (msg = "Failed to load map data" ∨
           msg = "Could not find the specified location")).
Proof.
  intros H. simpl. rewrite H. unfold geocodeAddress_resume.
  destruct o as [[[[|f0 fs]|]]|t]; simpl;
    rewrite ?fetches_app, ?app_nil_r;
    try (split_and!; [done..|]; intros _; eexists; split; [done|];
         (by left) || (by right)).
  destruct (relevantFeature toLowerCase p (f0 :: fs)); simpl;
    [destruct (map w); simpl|];
    rewrite ?fetches_app, ?app_nil_r; by split_and!.
Qed.

Lemma settled_run (b : Browser) (hs : list Happening) (w : World) :
  pending w = [] →
  (∀ p, Rerender p ∈ hs → p = deps w) →
  same_frame w (foldl (deliver b) w hs).
Proof.
  revert w. induction hs as [|h hs IH]; intros w Hp Hr; simpl.
  - apply same_frame_refl.
  - assert (Hh : same_frame w (deliver b w h)).
    { destruct h as [o| |p].
      - rewrite deliver_response_idle by done. apply same_frame_refl.
      - apply deliver_quiet; [done|]. by intros p [=].
      - apply deliver_quiet; [done|]. intros p' [= ->].
        apply Hr. by left. }
    eapply same_frame_trans; [exact Hh|].
    destruct Hh as (_ & Hd & Hq & _).
    apply IH; [congruence|].
    intros p Hin. rewrite Hd. apply Hr. by right.
Qed.

Lemma awaiting_quiet (b : Browser) (pre : list Happening) (w : World) :
  (∀ o, Response o ∉ pre) →
  (∀ p, Rerender p ∈ pre → p = deps w) →
  same_frame w (foldl (deliver b) w pre).
Proof.
  revert w. induction pre as [|h pre IH]; intros w Ho Hr; simpl.
  - apply same_frame_refl.
  - assert (Hh : same_frame w (deliver b w h)).
    { apply deliver_quiet.
      - intros o ->. apply (Ho o). by left.
      - intros p ->. apply Hr. by left. }
    eapply same_frame_trans; [exact Hh|].
    destruct Hh as (_ & Hd & _ & _).
    apply IH.
    + intros o Hin. apply (Ho o). by right.
    + intros p Hin. rewrite Hd. apply Hr. by right.
Qed.

Lemma awaiting_run (b : Browser) (hs : list Happening) (w : World)
    (p : NeighborhoodMapProps) :
  pending w = [p] →
  (∀ p', Rerender p' ∈ hs → p' = deps w) →
  fetches (log (foldl (deliver b) w hs)) = fetches (log w).
Proof.
  revert w. induction hs as [|h hs IH]; intros w Hp Hr; simpl; [done|].
  destruct h as [o| |p'].
  - destruct (deliver_response b w o p [] Hp) as (Hq & Hd & Hf & _).
    destruct (settled_run b hs (deliver b w (Response o)) Hq) as (_&_&_&H).
    { intros p' Hin. rewrite Hd. apply Hr. by right. }
    simpl in *. congruence.
  - destruct (deliver_quiet b w MapLoad) as (_ & Hd & Hq & Hf);
      [done | by intros ? [=] |].
    rewrite IH; [done | congruence |].
    intros p' Hin. rewrite Hd. apply Hr. by right.
  - destruct (deliver_quiet b w (Rerender p')) as (_ & Hd & Hq & Hf);
      [done | intros ? [= <-]; apply Hr; by left |].
    rewrite IH; [done | congruence |].
    intros p'' Hin. rewrite Hd. apply Hr. by right.
Qed.

(** The mount sends the geocoding request, once, and waits for it, when
    the address can be encoded. *)
Lemma mount_fetches (b : Browser) (p : NeighborhoodMapProps) :
  uriEncodable b (fullAddress p) = true →
  let w : World := mount defaultCenter b p in
  fetches (log w) = [geocodingRequest b p] ∧
  pending w = [p] ∧ deps w = p ∧ error w = None ∧
  map w = Some (addControl "GeolocateControl"
                  (addControl "NavigationControl" (newMap defaultCenter b))).
Proof.
  intros He. unfold mount, effect, geocodeAddress. simpl.
  rewrite He. by repeat split.
Qed.

(** When the address cannot be encoded the mount sends nothing and sets
    the error. *)
Lemma mount_fails (b : Browser) (p : NeighborhoodMapProps) :
  uriEncodable b (fullAddress p) = false →
  let w : World := mount defaultCenter b p in
  fetches (log w) = [] ∧
  pending w = [] ∧ deps w = p ∧
  error w = Some "Failed to load map data".
Proof.
  intros He. unfold mount, effect, geocodeAddress. simpl.
  rewrite He. by repeat split.
Qed.

(** ** At most one geocoding call per mount *)

(** C4, as the code has it.  A mounted map widget whose props (address,
    city, state and neighborhood name) stay the same calls the geocoding
    endpoint at most once, whatever happens afterwards (the response, the
    map's load event, further renders), and never again after a failure:
    exactly once, at the mount, when the full address can be
    URI-encoded, and not at all when it cannot.  On failure (the address
    cannot be encoded, the call is rejected, or its answer has no
    feature) an error text is set and the widget renders that text
    instead of the map. *)
Theorem geocoding_called_at_most_once (b : Browser)
    (p : NeighborhoodMapProps) (hs : list Happening) :
  (∀ p', Rerender p' ∈ hs → p' = p) →
  fetches (log (run b p hs)) =
    (if uriEncodable b (fullAddress p) then [geocodingRequest b p] else []) ∧
  (uriEncodable b (fullAddress p) = false →
   error (run b p hs) = Some "Failed to load map data" ∧
   render (run b p hs) = Alert "Failed to load map data") ∧
  (∀ pre o post,
     hs = pre ++ Response o :: post →
     (∀ o', Response o' ∉ pre) →
     geocodingFailed o →
     ∃ msg, error (run b p hs) = Some msg ∧
            render (run b p hs) = Alert msg ∧
            (msg = "Failed to load map data" ∨
             msg = "Could not find the specified location")).
Proof.
  intros Hr. unfold NeighborhoodMap.run.
  destruct (uriEncodable b (fullAddress p)) eqn:Henc.
  - destruct (mount_fetches b p Henc) as (Hf & Hp & Hd & He & _).
    split_and!; [|done|].
    + rewrite (awaiting_run b hs _ p); [done..|].
      intros p' Hin. rewrite Hd. by apply Hr.
    + intros pre o post -> Hpre Hfail.
      rewrite foldl_app. simpl.
      destruct (awaiting_quiet b pre (mount defaultCenter b p) Hpre)
        as (_ & Hd1 & Hp1 & _).
      { intros p' Hin. rewrite Hd. apply Hr.
        apply elem_of_app. by left. }
      set (w1 := foldl (deliver b) (mount defaultCenter b p) pre) in *.
      destruct (deliver_response b w1 o p []) as (Hq & Hd2 & _ & Hmsg);
        [congruence|].
      destruct (Hmsg Hfail) as (msg & Hmsg1 & Hmsg2).
      destruct (settled_run b post (deliver b w1 (Response o)) Hq)
        as (He3 & _).
      { intros p' Hin. rewrite Hd2, Hd1, Hd. apply Hr.
        apply elem_of_app. right. by right. }
      exists msg. unfold render. simpl in *.
      rewrite He3, Hmsg1. by split_and!.
  - destruct (mount_fails b p Henc) as (Hf & Hp & Hd & He).
    destruct (settled_run b hs (mount defaultCenter b p) Hp)
      as (He' & _ & _ & Hf').
    { intros p' Hin. rewrite Hd. by apply Hr. }
    assert (Hrender : render (foldl (deliver b) (mount defaultCenter b p) hs)
                      = Alert "Failed to load map data").
    { unfold render. by rewrite He', He. }
    split_and!.
    + by rewrite Hf', Hf.
    + intros _. split; [by rewrite He', He | exact Hrender].
    + intros pre o post _ _ _. exists "Failed to load map data".
      split_and!; [by rewrite He', He | exact Hrender | by left].
Qed.

(** ** The marker and the boundary layers *)

Lemma find_first {A : Type} (f : A → bool) (l : list A) (x : A) :
  List.find f l = Some x →
  ∃ pre post, l = pre ++ x :: post ∧ (∀ y, y ∈ pre → f y = false) ∧
              f x = true.
Proof.
  induction l as [|a l IH]; simpl; [done|].
  destruct (f a) eqn:E.
  - intros [= ->]. exists [], l. split_and!; [done| |done].
    intros y Hy. by apply elem_of_nil in Hy.
  - intros H. destruct (IH H) as (pre & post & -> & Hpre & Hx).
    exists (a :: pre), post. split_and!; [done| |done].
    intros y Hy. apply elem_of_cons in Hy as [->|Hy]; [done|by apply Hpre].
Qed.

Lemma find_none_all {A : Type} (f : A → bool) (l : list A) :
  List.find f l = None → ∀ y, y ∈ l → f y = false.
Proof.
  induction l as [|a l IH]; simpl; intros H y Hy.
  - by apply elem_of_nil in Hy.
  - destruct (f a) eqn:E; [done|].
    apply elem_of_cons in Hy as [->|Hy]; [done|by apply IH].
Qed.

(** The feature chosen from a non-empty answer: the first one whose
    place and region match the city and state of the props, and the
    first one of all when none matches. *)
Lemma relevantFeature_spec (p : NeighborhoodMapProps)
    (f0 : MapboxFeature) (fs : list MapboxFeature) :
  ∃ f, relevantFeature toLowerCase p (f0 :: fs) = Some f ∧
       ((∃ pre post, f0 :: fs = pre ++ f :: post ∧
           (∀ g, g ∈ pre → isRelevant toLowerCase p g = false) ∧
           isRelevant toLowerCase p f = true) ∨
        ((∀ g, g ∈ f0 :: fs → isRelevant toLowerCase p g = false) ∧
         f = f0)).
Proof.
  unfold relevantFeature.
  destruct (List.find _ (f0 :: fs)) as [f|] eqn:E.
  - exists f. split; [done|]. left. by apply find_first.
  - exists f0. split; [done|]. right. split; [|done].
    by apply find_none_all.
Qed.


Lemma rerender_same (b : Browser) (w : World) :
  rerender defaultCenter b (deps w) w = commit w.
Proof. unfold rerender. simpl. by destruct (decide _). Qed.



(** ** Matching, as the callback computes it *)





(** ** The marker and the boundary layers *)


End Proofs.

Example matching_sample :
  contextMatches toLowerCase sampleProps featureInProvo ∧
  ¬ contextMatches toLowerCase sampleProps featureElsewhere ∧
  ¬ contextMatches toLowerCase sampleProps bareFeature ∧
  relevantFeature toLowerCase sampleProps [featureElsewhere; featureInProvo]
    = Some featureInProvo ∧
  relevantFeature toLowerCase sampleProps [featureElsewhere; bareFeature]
    = Some featureElsewhere.
Proof.
  split_and!; try reflexivity.
  - split; reflexivity.
  - intros [H _]. vm_compute in H. discriminate.
  - intros [H _]. exact H.
Qed.

Lemma geocoding_called_at_most_once_witness :
  (∀ p', Rerender p' ∈ sampleHappenings → p' = sampleProps) ∧
  fetches (log (run toLowerCase sampleCenter sampleBrowser sampleProps
                  sampleHappenings))
    = [geocodingRequest sampleBrowser sampleProps] ∧
  fetches (log (run toLowerCase sampleCenter sampleBrowser brokenProps []))
    = [].
Proof.
  assert (H : ∀ p', Rerender p' ∈ sampleHappenings → p' = sampleProps).
  { intros p' H. unfold sampleHappenings in H.
    repeat (apply elem_of_cons in H as [H|H]; [by simplify_eq|]).
    by apply elem_of_nil in H. }
  split_and!; [exact H | |].
  - exact (proj1 (geocoding_called_at_most_once toLowerCase sampleCenter
                    sampleBrowser sampleProps sampleHappenings H)).
  - refine (proj1 (geocoding_called_at_most_once toLowerCase sampleCenter
                     sampleBrowser brokenProps [] _)).
    intros p' Hin. by apply elem_of_nil in Hin.
Defined.

(** C4 as stated fails, in both directions.  With the address fixed, a
    render that only changes the neighborhood name runs the effect again
    and sends the same request a second time; and for an address that
    cannot be URI-encoded the mount sends no request at all. *)
Lemma geocoding_not_exactly_once :
  address renamedProps = address sampleProps ∧
  fetches (log (run toLowerCase sampleCenter sampleBrowser sampleProps
                  [Rerender renamedProps]))
    = [geocodingRequest sampleBrowser sampleProps;
       geocodingRequest sampleBrowser sampleProps] ∧
  length (fetches (log (run toLowerCase sampleCenter sampleBrowser
                          sampleProps [Rerender renamedProps]))) ≠ 1%nat ∧
  isWellFormed (fullAddress brokenProps) = false ∧
  length (fetches (log (run toLowerCase sampleCenter sampleBrowser
                          brokenProps []))) ≠ 1%nat.
Proof. split_and!; first [reflexivity | vm_compute; discriminate]. Qed.



End NeighborhoodMapProofs.

(** * Further properties of the onboarding page *)

Module OnboardingExtra.
Import Onboarding OnboardingProofs.

(** ** The form data handlers *)

Lemma includes_toggle (l : list string) (i j : string) :
  includes (toggleInterest i l) j =
  if decide (j = i) then negb (includes l i) else includes l j.
Proof.
  apply Bool.eq_true_iff_eq. rewrite includes_elem_of.
  destruct (includes l i) eqn:E.
  - apply includes_elem_of in E as Hi. rewrite toggle_present by done.
    rewrite list_elem_of_filter. destruct (decide (j = i)) as [->|Hne].
    + simpl. split; [by intros [? _]|done].
    + rewrite includes_elem_of. split; [by intros [_ ?]|by split].
  - apply includes_false in E as Hi. rewrite toggle_absent by done.
    rewrite elem_of_app, list_elem_of_singleton.
    destruct (decide (j = i)) as [->|Hne].
    + simpl. split; [done|by right].
    + rewrite includes_elem_of. split; [by intros [?|?]|by left].
Qed.

(** X1.  Clicking the checkbox of an interest flips the checked state
    of that checkbox and of no other, whatever the list held before
    (duplicates included), and touches no other field. *)
Theorem checkbox_flips_only_itself (fd : FormData) (a b : string) :
  checked (handleInterestToggle (toLowerCase a) fd) b =
    (if decide (toLowerCase b = toLowerCase a)
     then negb (checked fd a) else checked fd b) ∧
  (∀ k, k ≠ KInterests →
        getField k (handleInterestToggle (toLowerCase a) fd) = getField k fd).
Proof.
  split.
  - unfold checked. simpl. apply includes_toggle.
  - intros k Hk. by destruct k.
Qed.

(** X2.  An input change sets exactly the field named by the input
    (one of the five rendered names) and leaves the five others alone.
    The name [interests] is the one name for which the result is not a
    form any more: the list is overwritten by the string.  Any further
    name changes nothing of the form data. *)
Theorem handleInputChange_sets_one_field (fd : FormData)
    (name value : string) :
  (∀ k, k ≠ KInterests → name = keyName k →
     ∃ fd', handleInputChange name value fd = Some fd' ∧
            ∀ k', getField k' fd' =
                  if decide (k' = k) then VString value else getField k' fd) ∧
  (name = "interests" → handleInputChange name value fd = None) ∧
  ((∀ k, name ≠ keyName k) → handleInputChange name value fd = Some fd).
Proof.
  split_and!.
  - intros k Hk ->. destruct k; try done; eexists; (split; [reflexivity|]);
      intros k'; by destruct k'.
  - by intros ->.
  - intros H. unfold handleInputChange.
    pose proof (H KNeighborhoodName). pose proof (H KAddress).
    pose proof (H KCity). pose proof (H KState).
    pose proof (H KInterests). pose proof (H KCommunityType).
    by repeat case_decide.
Qed.

Lemma handleInputChange_sets_one_field_witness :
  (getField KCity <$> handleInputChange "city" "Orem" sampleForm)
    = Some (VString "Orem") ∧
  (getField KState <$> handleInputChange "city" "Orem" sampleForm)
    = Some (VString "Utah") ∧
  handleInputChange "interests" "Orem" sampleForm = None ∧
  handleInputChange "zip" "84601" sampleForm = Some sampleForm.
Proof.
  pose proof (handleInputChange_sets_one_field sampleForm "city" "Orem")
    as (H1 & _ & _).
  pose proof (handleInputChange_sets_one_field sampleForm "interests" "Orem")
    as (_ & H2 & _).
  pose proof (handleInputChange_sets_one_field sampleForm "zip" "84601")
    as (_ & _ & H3).
  destruct (H1 KCity ltac:(discriminate) eq_refl) as (fd' & Hfd' & Hk).
  split_and!.
  - rewrite Hfd'. exact (f_equal Some (Hk KCity)).
  - rewrite Hfd'. exact (f_equal Some (Hk KState)).
  - exact (H2 eq_refl).
  - apply H3. intros k. destruct k; discriminate.
Defined.

(** X3.  Edits of the rendered inputs compose as a user expects: for
    names other than [interests] every edit gives a form, the last value
    typed into an input wins, edits of different inputs commute, and an
    edit of an input commutes with a click on an interest. *)
Theorem form_edits_compose (fd : FormData) (n1 n2 v1 v2 i : string) :
  n1 ≠ "interests" →
  n2 ≠ "interests" →
  is_Some (handleInputChange n1 v1 fd) ∧
  (handleInputChange n1 v1 fd ≫= handleInputChange n1 v2)
    = handleInputChange n1 v2 fd ∧
  (n1 ≠ n2 →
   (handleInputChange n2 v2 fd ≫= handleInputChange n1 v1)
     = (handleInputChange n1 v1 fd ≫= handleInputChange n2 v2)) ∧
  handleInputChange n1 v1 (handleInterestToggle i fd)
    = handleInterestToggle i <$> handleInputChange n1 v1 fd.
Proof.
  intros H1 H2. unfold handleInputChange, handleInterestToggle.
  split_and!; [| |intros Hne|];
    repeat case_decide; simplify_eq/=; repeat case_decide;
    simplify_eq/=; done.
Qed.

Lemma form_edits_compose_witness :
  ("city" : string) ≠ "interests" ∧
  ("state" : string) ≠ "interests" ∧
  ("city" : string) ≠ "state" ∧
  (handleInputChange "state" "UT" sampleForm ≫= handleInputChange "city" "Orem")
    = (handleInputChange "city" "Orem" sampleForm
         ≫= handleInputChange "state" "UT").
Proof.
  assert (H1 : ("city" : string) ≠ "interests") by discriminate.
  assert (H2 : ("state" : string) ≠ "interests") by discriminate.
  assert (H : ("city" : string) ≠ "state") by discriminate.
  split_and!; [exact H1 | exact H2 | exact H |].
  exact (proj1 (proj2 (proj2 (form_edits_compose sampleForm "city" "state"
                                "Orem" "UT" "" H1 H2))) H).
Defined.

(** ** Invariants of the page *)

Lemma handleInputChange_interests (name value : string) (fd : FormData) :
  interests (default fd (handleInputChange name value fd)) = interests fd.
Proof. unfold handleInputChange. by repeat case_decide. Qed.

Lemma toggle_NoDup (i : string) (l : list string) :
  NoDup l → NoDup (toggleInterest i l).
Proof.
  intros Hnd. destruct (decide (i ∈ l)) as [Hi|Hi].
  - rewrite toggle_present by done. by apply NoDup_filter.
  - rewrite toggle_absent by done. apply NoDup_app. split_and!; [done| |].
    + intros x Hx Hxi. apply list_elem_of_singleton in Hxi. by subst.
    + apply NoDup_singleton.
Qed.

Lemma toggle_elem_of (i j : string) (l : list string) :
  j ∈ toggleInterest i l → j ∈ l ∨ j = i.
Proof.
  destruct (decide (i ∈ l)) as [Hi|Hi].
  - rewrite toggle_present by done. rewrite list_elem_of_filter.
    intros [_ H]. by left.
  - rewrite toggle_absent by done.
    rewrite elem_of_app, list_elem_of_singleton. done.
Qed.

(** What every reachable state of the page satisfies. *)
Lemma reachable_invariant (w : World) :
  reachable w →
  1 ≤ step (ui w) ≤ 3 ∧
  NoDup (interests (formData (ui w))) ∧
  (∀ i, i ∈ interests (formData (ui w)) → i ∈ toLowerCase <$> interestLabels).
Proof.
  induction 1 as [d t|w a Hw (Hs & Hnd & Hsub) Hen].
  - simpl. split_and!; [lia..|constructor|].
    intros i Hi. by apply elem_of_nil in Hi.
  - destruct a as [env| |name value|interest]; simpl in Hen.
    + destruct (decide (step (ui w) < 3)) as [Hlt|Hge].
      * unfold act, perform. rewrite handleSubmit_next by done. simpl.
        split_and!; [lia..|done|done].
      * destruct (handleSubmit_last_ui (ui w) env w Hge) as (H1 & H2 & _).
        unfold act, perform.
        destruct (handleSubmit (ui w) env w) as [[r w'] evs]. simpl in *.
        rewrite H1, H2. split_and!; [lia..|done|done].
    + apply Z.ltb_lt in Hen. run_handler. split_and!; [lia..|done|done].
    + run_handler. rewrite handleInputChange_interests.
      split_and!; [lia..|done|done].
    + apply andb_true_iff in Hen as [_ Hen].
      apply bool_decide_eq_true in Hen.
      run_handler. split_and!; [lia..| |].
      * by apply toggle_NoDup.
      * intros i Hi. apply toggle_elem_of in Hi as [Hi| ->]; [by apply Hsub|done].
Qed.

(** X4.  The interests the page can hold: in every state reachable from
    the mount the list has no duplicates and holds only lower-cased
    labels of the eight checkboxes, so at most eight entries. *)
Theorem interests_invariant (w : World) :
  reachable w →
  NoDup (interests (formData (ui w))) ∧
  (∀ i, i ∈ interests (formData (ui w)) →
        i ∈ ["events"; "safety"; "environment"; "education"; "sports";
             "arts"; "food"; "business"]) ∧
  (length (interests (formData (ui w))) ≤ 8)%nat.
Proof.
  intros Hw. destruct (reachable_invariant w Hw) as (_ & Hnd & Hsub).
  split_and!; [done|exact Hsub|].
  change 8%nat with (length (toLowerCase <$> interestLabels)).
  apply submseteq_length, NoDup_submseteq; done.
Qed.

Lemma interests_invariant_witness :
  reachable (act (InterestToggle "arts")
               (act (Submit servicesOk)
                  (act (Submit servicesOk) (emptyWorld initialUI)).1).1).1 ∧
  NoDup (interests (formData (ui
    (act (InterestToggle "arts")
       (act (Submit servicesOk)
          (act (Submit servicesOk) (emptyWorld initialUI)).1).1).1))).
Proof.
  assert (H : reachable (act (InterestToggle "arts")
               (act (Submit servicesOk)
                  (act (Submit servicesOk) (emptyWorld initialUI)).1).1).1).
  { apply reachable_act; [|reflexivity].
    apply reachable_act; [|reflexivity].
    apply reachable_act; [|reflexivity].
    apply reachable_mount. }
  split; [exact H | exact (proj1 (interests_invariant _ H))].
Defined.

(** X5.  The label of the submit button tells what a press does,
    whenever a press fires the submit event: in a reachable state with
    the button enabled and every required control of the step filled, it
    reads "Complete" and the press runs the submission (the user is
    asked for, the step stays), or it reads "Next" and the press calls
    no service and only moves one step on.  (With a required control
    left empty, as at the mount, the browser holds the event back.) *)
Theorem submit_label_matches_action (w : World) (env : Services) :
  reachable w →
  enabled (ui w) (Submit env) = true →
  requiredFilled (ui w) = true →
  (submitLabel (ui w) = "Complete" ∧
   "auth.getUser" ∈ service_calls (act (Submit env) w).2 ∧
   step (ui (act (Submit env) w).1) = step (ui w)) ∨
  (submitLabel (ui w) = "Next" ∧
   service_calls (act (Submit env) w).2 = [] ∧
   step (ui (act (Submit env) w).1) = step (ui w) + 1).
Proof.
  intros Hw Hen _. destruct (reachable_invariant w Hw) as (Hs & _ & _).
  simpl in Hen. apply negb_true_iff in Hen.
  unfold submitLabel. rewrite Hen.
  destruct (decide (step (ui w) < 3)) as [Hlt|Hge].
  - right. unfold act, perform. rewrite handleSubmit_next by done. simpl.
    split_and!; [|done..].
    destruct (Z.eqb_spec (step (ui w)) 3); [lia|done].
  - left. assert (He : step (ui w) = 3) by lia.
    rewrite He. split_and!; [done| |].
    + unfold act, perform, handleSubmit. rewrite He. simpl.
      split_answers env; run_handler; by left.
    + destruct (handleSubmit_last_ui (ui w) env w Hge) as (H1 & _ & _).
      unfold act, perform.
      destruct (handleSubmit (ui w) env w) as [[r w'] evs]. simpl in *.
      by rewrite H1.
Qed.

Lemma submit_label_matches_action_witness :
  requiredFilled initialUI = false ∧
  reachable (act (InputChange "neighborhoodName" "Maple Grove")
               (emptyWorld initialUI)).1 ∧
  enabled (ui (act (InputChange "neighborhoodName" "Maple Grove")
                 (emptyWorld initialUI)).1) (Submit servicesOk) = true ∧
  requiredFilled (ui (act (InputChange "neighborhoodName" "Maple Grove")
                        (emptyWorld initialUI)).1) = true ∧
  submitLabel (ui (act (InputChange "neighborhoodName" "Maple Grove")
                     (emptyWorld initialUI)).1) = "Next" ∧
  step (ui (act (Submit servicesOk)
              (act (InputChange "neighborhoodName" "Maple Grove")
                 (emptyWorld initialUI)).1).1) = 2.
Proof.
  assert (H : reachable (act (InputChange "neighborhoodName" "Maple Grove")
                           (emptyWorld initialUI)).1).
  { apply reachable_act; [apply reachable_mount | reflexivity]. }
  split_and!; [reflexivity | exact H | reflexivity | reflexivity | |];
    destruct (submit_label_matches_action _ servicesOk H eq_refl eq_refl)
      as [(Hl & _ & Hs)|(Hl & _ & Hs)];
    first [ exact Hl | exact Hs | discriminate Hl ].
Defined.

(** ** Moving between the steps *)

(** X6.  Moving between the steps loses nothing: a submit and Back both
    leave the form data alone, Back right after Next gives back the very
    same page state, and below the last step a submit calls no service,
    reads no clock and leaves the store alone. *)
Theorem navigation_keeps_the_form (w : World) (env : Services) :
  formData (ui (act (Submit env) w).1) = formData (ui w) ∧
  formData (ui (act Back w).1) = formData (ui w) ∧
  (step (ui w) < 3 →
   (act Back (act (Submit env) w).1).1 = w ∧
   service_calls (act (Submit env) w).2 = [] ∧
   db (act (Submit env) w).1 = db w ∧
   ticks (act (Submit env) w).1 = ticks w).
Proof.
  split_and!.
  - destruct (decide (step (ui w) < 3)) as [Hlt|Hge].
    + unfold act, perform. by rewrite handleSubmit_next.
    + destruct (handleSubmit_last_ui (ui w) env w Hge) as (_ & H & _).
      unfold act, perform.
      by destruct (handleSubmit (ui w) env w) as [[r w'] evs].
  - by run_handler.
  - intros Hlt. unfold act at 2 3 4 5, perform.
    rewrite handleSubmit_next by done. simpl. split_and!; try done.
    run_handler. destruct w as [[st sb er fd] d t]. simpl.
    do 2 f_equal. lia.
Qed.

Lemma navigation_keeps_the_form_witness :
  step (ui (emptyWorld stepTwo)) < 3 ∧
  (act Back (act (Submit servicesOk) (emptyWorld stepTwo)).1).1
    = emptyWorld stepTwo.
Proof.
  assert (H : step (ui (emptyWorld stepTwo)) < 3) by (simpl; lia).
  split; [exact H|].
  exact (proj1 (proj2 (proj2 (navigation_keeps_the_form
                                (emptyWorld stepTwo) servicesOk)) H)).
Defined.

(** ** More on the final submission *)

(** X7.  [handleSubmit] lets nothing escape: whatever the services
    answer, reject or throw, on any step, the handler itself completes
    normally. *)
Theorem handleSubmit_never_throws (s : UIState) (env : Services)
    (w : World) :
  (handleSubmit s env w).1.1 = Val ().
Proof.
  unfold handleSubmit. destruct (step s <? 3); [by run_handler|].
  split_answers env; by run_handler.
Qed.

(** X8.  After a submit on the last step the page shows no error if
    and only if the submission went through (a user is there and both
    upserts succeeded): an error left by an earlier attempt is cleared by
    a successful retry, and every failure leaves a message. *)
Theorem error_cleared_iff_success (s : UIState) (env : Services)
    (w : World) :
  ¬ step s < 3 →
  error (ui (handleSubmit s env w).1.2) = None ↔ submission_succeeds env.
Proof.
  intros H. unfold handleSubmit, submission_succeeds, both_upserts_succeed.
  apply Z.ltb_nlt in H. rewrite H.
  split_answers env; run_handler;
    (split;
     [ intros He; first [ discriminate He | by eauto ]
     | intros ([u' Hu] & H1 & H2); first [ discriminate | reflexivity ] ]).
Qed.

Lemma error_cleared_iff_success_witness :
  ¬ step finalStep < 3 ∧
  error (ui (emptyWorld stepTwo)) = Some "No user found" ∧
  error (ui (handleSubmit finalStep servicesOk
               (emptyWorld stepTwo)).1.2) = None.
Proof.
  split_and!; [simpl; lia | reflexivity |].
  apply (error_cleared_iff_success finalStep servicesOk (emptyWorld stepTwo)).
  - simpl. lia.
  - split; [by exists sampleUser | by split].
Defined.

(** X9.  A submission writes under the id of the signed-in user only:
    the rows of every other user, in both tables, are as before,
    whatever the services answer; with no user nothing is written. *)
Theorem other_rows_untouched (s : UIState) (env : Services) (w : World)
    (k : string) :
  getUser env ≠ Resolved (Some (mkUser k)) →
  user_profiles (db (handleSubmit s env w).1.2) !! k
    = user_profiles (db w) !! k ∧
  neighborhoods (db (handleSubmit s env w).1.2) !! k
    = neighborhoods (db w) !! k.
Proof.
  intros Hk. unfold handleSubmit. destruct (step s <? 3); [by run_handler|].
  split_answers env; run_handler;
    try done;
    match goal with
    | u : User |- _ =>
        assert (id u ≠ k) by (intros <-; apply Hk; by destruct u);
        rewrite ?lookup_insert_ne by done; done
    end.
Qed.

Lemma other_rows_untouched_witness :
  getUser servicesOk ≠ Resolved (Some (mkUser "user-2")) ∧
  user_profiles
    (db (handleSubmit finalStep servicesOk
           (mkWorld finalStep otherUsersRows 0)).1.2) !! "user-2"
    = user_profiles otherUsersRows !! "user-2".
Proof.
  assert (H : getUser servicesOk ≠ Resolved (Some (mkUser "user-2")))
    by discriminate.
  split; [exact H|].
  exact (proj1 (other_rows_untouched finalStep servicesOk
                  (mkWorld finalStep otherUsersRows 0) "user-2" H)).
Defined.

(** The events of a list are among those of [l]. *)
Ltac in_events H :=
  repeat (apply elem_of_cons in H as [H|H]; [simplify_eq; eauto|]);
  try (by apply elem_of_nil in H).

(** X10.  The rows a submission sends are built from the user and from
    the form data of the render the handler belongs to: every profile
    row and every neighborhood row of the trace carries that user's id
    and that form's name, address, city and state, so the two rows of one
    submission always agree on them. *)
Theorem upserted_rows_carry_the_form (s : UIState) (env : Services)
    (w : World) (u : User) :
  getUser env = Resolved (Some u) →
  (∀ r, EUpsertProfile r ∈ (handleSubmit s env w).2 →
     ∃ created updated, r = profileRow u (formData s) created updated) ∧
  (∀ r, EUpsertNeighborhood r ∈ (handleSubmit s env w).2 →
     ∃ created updated, r = neighborhoodRow u (formData s) created updated).
Proof.
  intros Hu. unfold handleSubmit.
  destruct (step s <? 3).
  - run_handler. split; intros r H; in_events H.
  - split_answers env; simplify_eq; run_handler;
      (split; intros r H; in_events H).
Qed.

Lemma upserted_rows_carry_the_form_witness :
  getUser servicesOk = Resolved (Some sampleUser) ∧
  (∀ r, EUpsertNeighborhood r
          ∈ (handleSubmit finalStep servicesOk (emptyWorld finalStep)).2 →
     ∃ created updated,
       r = neighborhoodRow sampleUser sampleForm created updated).
Proof.
  split; [reflexivity|].
  exact (proj2 (upserted_rows_carry_the_form finalStep servicesOk
                  (emptyWorld finalStep) sampleUser eq_refl)).
Defined.

(** ** More on the load of the page *)

(** X11.  [checkAuth] only looks and redirects: whatever the services
    answer it leaves the page state and the store as they are, sends no
    upsert, redirects at most once and then to the login page or to the
    dashboard, and asks for a profile only with the id of the session's
    user.  With a session and no profile row it does not redirect at
    all, and a rejected call escapes it without a redirect. *)
Theorem checkAuth_only_reads (env : Services) (w : World) :
  (checkAuth env w).1.2 = w ∧
  upsert_tables (checkAuth env w).2 = [] ∧
  (redirects (checkAuth env w).2 = [] ∨
   redirects (checkAuth env w).2 = ["/auth/login"] ∨
   redirects (checkAuth env w).2 = ["/dashboard"]) ∧
  (∀ k, ESelectProfile k ∈ (checkAuth env w).2 →
        ∃ session, getSession env = Resolved (Some session) ∧
                   k = id (user session)) ∧
  (∀ session, getSession env = Resolved (Some session) →
              select_profile env = Resolved None →
              redirects (checkAuth env w).2 = [] ∧
              (checkAuth env w).1.1 = Val ()) ∧
  (∀ t, (checkAuth env w).1.1 = Exn t → redirects (checkAuth env w).2 = []).
Proof.
  destruct env as [[[ses|]|ts] [[row|]|tp] gu up un ck]; run_handler;
    destruct w; (split_and!;
     [ reflexivity | reflexivity
     | first [ by left | by right; left | by right; right ]
     | intros k H; in_events H
     | intros session' H1 H2; by simplify_eq
     | intros t H; by simplify_eq ]).
Qed.

Lemma checkAuth_only_reads_witness :
  getSession servicesOk = Resolved (Some (mkSession sampleUser)) ∧
  select_profile servicesOk = Resolved None ∧
  redirects (checkAuth servicesOk (emptyWorld initialUI)).2 = [].
Proof.
  split_and!; [reflexivity..|].
  exact (proj1 (proj1 (proj2 (proj2 (proj2 (proj2
           (checkAuth_only_reads servicesOk (emptyWorld initialUI))))))
           _ eq_refl eq_refl)).
Defined.

(** X25.  Every row is stamped afresh: the clock is read twice just
    before each upsert and at no other time, so a submission reads it
    twice per upsert it sends, and [created_at] is always a new reading,
    taken just before [updated_at], never a value kept from an earlier
    write. *)
Theorem rows_are_stamped_afresh (s : UIState) (env : Services) (w : World) :
  (ticks (handleSubmit s env w).1.2
   = ticks w + 2 * length (upsert_tables (handleSubmit s env w).2))%nat ∧
  (∀ r, EUpsertProfile r ∈ (handleSubmit s env w).2 →
     p_created_at r = clock env (ticks w) ∧
     p_updated_at r = clock env (S (ticks w))) ∧
  (∀ r, EUpsertNeighborhood r ∈ (handleSubmit s env w).2 →
     n_created_at r = clock env (S (S (ticks w))) ∧
     n_updated_at r = clock env (S (S (S (ticks w))))).
Proof.
  unfold handleSubmit. destruct (step s <? 3).
  - run_handler. split_and!; [lia|intros r H; in_events H..].
  - split_answers env; run_handler;
      (split_and!; [lia|intros r H; in_events H..]).
Qed.

End OnboardingExtra.

(** * Further properties of the map widget *)

Module NeighborhoodMapExtra.
Import NeighborhoodMap NeighborhoodMapProofs.

(** ** The geocoding request *)

Lemma filterBoolean_one (v : option string) :
  filterBoolean [v] =
  match v with
  | Some s => if decide (s = "") then [] else [s]
  | None => []
  end.
Proof. destruct v as [s|]; [|done]. simpl. by destruct (decide (s = "")). Qed.

Lemma elem_of_spreadIf (key : string) (v : option string)
    (k x : string) :
  (k, x) ∈ spreadIf key v ↔ k = key ∧ v = Some x ∧ x ≠ "".
Proof.
  unfold spreadIf. rewrite filterBoolean_one.
  destruct v as [s|]; [destruct (decide (s = "")) as [->|Hs]|]; simpl.
  - rewrite elem_of_nil. split; [done|]. intros (_ & [= <-] & H). done.
  - rewrite list_elem_of_singleton. split.
    + intros [= -> ->]. done.
    + intros (-> & [= ->] & _). done.
  - rewrite elem_of_nil. split; [done|]. intros (_ & [=] & _).
Qed.

(** X12.  The geocoding request names the city as [place] and the
    state as [region] exactly when the prop is a non-empty string, and
    then with the value of the prop; the fixed parameters (country,
    types, limit of one result, language, bounding box) are always sent,
    and no parameter is sent twice. *)
Theorem request_parameters (b : Browser) (p : NeighborhoodMapProps) :
  let q := queryParams (geocodingRequest b p) in
  (∀ v, ("place", v) ∈ q ↔ city p = Some v ∧ v ≠ "") ∧
  (∀ v, ("region", v) ∈ q ↔ state p = Some v ∧ v ≠ "") ∧
  [("country", "US"); ("types", "address"); ("limit", "1");
   ("language", "en"); ("bbox", "-112.5,40.0,-111.5,41.0")] ⊆ q ∧
  ("access_token", default "" (NEXT_PUBLIC_MAPBOX_TOKEN b)) ∈ q ∧
  NoDup q.*1.
Proof.
  simpl. split_and!.
  - intros v. rewrite !elem_of_cons, !elem_of_app, !elem_of_spreadIf,
      list_elem_of_singleton. intuition congruence.
  - intros v. rewrite !elem_of_cons, !elem_of_app, !elem_of_spreadIf,
      list_elem_of_singleton. intuition congruence.
  - intros x Hx. rewrite !elem_of_cons, !elem_of_app, list_elem_of_singleton.
    repeat (apply elem_of_cons in Hx as [->|Hx]; [tauto|]).
    by apply elem_of_nil in Hx.
  - by left.
  - unfold spreadIf. rewrite !filterBoolean_one.
    destruct (city p) as [c|], (state p) as [st|]; simpl;
      repeat case_decide; simpl;
      apply (bool_decide_unpack _); vm_compute; exact I.
Qed.

(** X13.  The address that is geocoded is made of the non-empty parts
    only, so a missing city or state leaves no dangling separator, and
    an empty string counts as missing: with neither city nor state it is
    the street address alone, and with all three it is
    "address, city, state". *)
Theorem fullAddress_parts (n a : string) (c st : option string) :
  (a ≠ "" → c = None ∨ c = Some "" → st = None ∨ st = Some "" →
   fullAddress (mkProps n a c st) = a) ∧
  (∀ c' st', a ≠ "" → c = Some c' → c' ≠ "" → st = Some st' → st' ≠ "" →
   fullAddress (mkProps n a c st) = a +:+ ", " +:+ c' +:+ ", " +:+ st') ∧
  (∀ b, geocodingRequest b (mkProps n a None st)
        = geocodingRequest b (mkProps n a (Some "") st) ∧
        geocodingRequest b (mkProps n a c None)
        = geocodingRequest b (mkProps n a c (Some ""))).
Proof.
  split_and!.
  - intros Ha [-> | ->] [-> | ->]; unfold fullAddress; simpl;
      by destruct (decide (a = "")).
  - intros c' st' Ha -> Hc -> Hs. unfold fullAddress. simpl.
    destruct (decide (a = "")), (decide (c' = "")), (decide (st' = ""));
      done.
  - intros b. split; reflexivity.
Qed.

Lemma fullAddress_parts_witness :
  ("12 Elm Street" : string) ≠ "" ∧
  fullAddress addressOnly = "12 Elm Street".
Proof.
  assert (H : ("12 Elm Street" : string) ≠ "") by discriminate.
  split; [exact H|].
  exact (proj1 (fullAddress_parts "Maple Grove" "12 Elm Street" None
                  (Some "")) H (or_introl eq_refl) (or_intror eq_refl)).
Defined.

Section Extra.

Context {number : Type}.
Variable toLowerCase : string → string.
Variable defaultCenter : number * number.

Local Abbreviation World := (@World number).
Local Abbreviation Happening := (@Happening number).
Local Abbreviation MapboxFeature := (@MapboxFeature number).
Local Abbreviation GeocodingData := (@GeocodingData number).
Local Abbreviation MapState := (@MapState number).
Local Abbreviation deliver := (deliver toLowerCase defaultCenter).
Local Abbreviation run := (run toLowerCase defaultCenter).

(** ** Choosing the feature *)

(** X14.  The feature the widget works with is always one of the
    features of the answer: none is chosen only from an empty answer,
    and a single feature is chosen whether it matches or not. *)
Theorem relevantFeature_is_a_feature (p : NeighborhoodMapProps)
    (fs : list MapboxFeature) :
  (relevantFeature toLowerCase p fs = None ↔ fs = []) ∧
  (∀ f, relevantFeature toLowerCase p fs = Some f → f ∈ fs) ∧
  (∀ f : MapboxFeature, relevantFeature toLowerCase p [f] = Some f).
Proof.
  split_and!.
  - unfold relevantFeature. destruct (List.find _ fs) eqn:E.
    + split; [done|]. intros ->. done.
    + destruct fs; simpl; split; done.
  - intros f. unfold relevantFeature. destruct (List.find _ fs) eqn:E.
    + intros [= <-]. apply find_first in E as (pre & post & -> & _).
      apply elem_of_app. right. by left.
    + destruct fs as [|f0 fs]; simpl; [done|]. intros [= <-]. by left.
  - intros f. unfold relevantFeature. simpl.
    by destruct (isRelevant toLowerCase p f).
Qed.

(** X15.  Matching when something is missing.  A feature without
    context has neither a city nor a state; it matches exactly the props
    that have neither.  When the city prop is missing only a feature
    without a place entry can match, and when it is given a feature
    without a place entry never matches. *)
Theorem matching_with_missing_parts (p : NeighborhoodMapProps)
    (f : MapboxFeature) :
  (context f = None →
   featureCity f = None ∧ featureState f = None ∧
   (isRelevant toLowerCase p f = true ↔ city p = None ∧ state p = None)) ∧
  (city p = None → isRelevant toLowerCase p f = true → featureCity f = None) ∧
  (is_Some (city p) → featureCity f = None →
   isRelevant toLowerCase p f = false).
Proof.
  unfold isRelevant, featureCity, featureState, contextText. split_and!.
  - intros ->. simpl. split_and!; [done..|].
    rewrite andb_true_iff, !bool_decide_eq_true.
    destruct (city p), (state p); simpl; split; intros [? ?]; done.
  - intros -> H. apply andb_true_iff in H as [H _].
    apply bool_decide_eq_true in H. simpl in H.
    by destruct (context f ≫= _).
  - intros [c ->] Hf. simpl in *. by rewrite Hf.
Qed.

(** ** What a response does *)

(** An answer with a feature, on a world that has a map. *)
Lemma resume_success (p : NeighborhoodMapProps) (data : GeocodingData)
    (f0 : MapboxFeature) (fs : list MapboxFeature) (w : World)
    (m : MapState) :
  features data = Some (f0 :: fs) →
  map w = Some m →
  error (geocodeAddress_resume toLowerCase p (Resolved data) w) = error w ∧
  pending (geocodeAddress_resume toLowerCase p (Resolved data) w)
    = pending w ∧
  ∃ f m', relevantFeature toLowerCase p (f0 :: fs) = Some f ∧
          map (geocodeAddress_resume toLowerCase p (Resolved data) w)
            = Some m' ∧
          camera m' = mkCamera (center f) 15 (Some 2000) ∧
          markers m' = markers m ++ [mkMarker (center f) 25 (popup p)] ∧
          loadHandlers m' = loadHandlers m ++ [center f] ∧
          layers m' = layers m ∧ sources m' = sources m ∧
          loaded m' = loaded m ∧ removed m' = removed m.
Proof.
  intros Hf Hm. unfold geocodeAddress_resume. rewrite Hf.
  destruct (relevantFeature_spec toLowerCase p f0 fs) as (f & Hrf & _).
  rewrite Hrf. simpl. rewrite Hm. simpl. split_and!; [done..|].
  exists f. rewrite Hm. simpl. eexists. by split_and!.
Qed.

(** X16.  A response either marks the map or reports an error, never
    both.  A failed call leaves the map as it is and sets an error text;
    an answer with a feature leaves the error as it is and, on the
    current map, flies to the chosen feature at zoom 15, adds one marker
    there and one load listener, and adds no layer yet. *)
Theorem response_marks_or_fails (p : NeighborhoodMapProps)
    (o : Outcome GeocodingData) (w : World) :
  (geocodingFailed o →
   map (geocodeAddress_resume toLowerCase p o w) = map w ∧
   is_Some (error (geocodeAddress_resume toLowerCase p o w))) ∧
  (∀ data f0 fs m,
     o = Resolved data → features data = Some (f0 :: fs) → map w = Some m →
     error (geocodeAddress_resume toLowerCase p o w) = error w ∧
     ∃ f m', relevantFeature toLowerCase p (f0 :: fs) = Some f ∧
             map (geocodeAddress_resume toLowerCase p o w) = Some m' ∧
             camera m' = mkCamera (center f) 15 (Some 2000) ∧
             markers m' = markers m ++ [mkMarker (center f) 25 (popup p)] ∧
             loadHandlers m' = loadHandlers m ++ [center f] ∧
             layers m' = layers m ∧ sources m' = sources m).
Proof.
  split.
  - destruct o as [[[[|f0 fs]|]]|t]; simpl; try done;
      (intros _; split; [done|by eexists]).
  - intros data f0 fs m -> Hf Hm.
    destruct (resume_success p data f0 fs w m Hf Hm)
      as (He & _ & f & m' & H1 & H2 & H3 & H4 & H5 & H6 & H7 & _).
    split; [exact He|]. exists f, m'. by split_and!.
Qed.

(** ** After an error, and after a change of props *)

Lemma runCleanup_frame (w : World) :
  same_frame w (runCleanup w) ∧
  mapContainer (runCleanup w) = mapContainer w.
Proof. unfold runCleanup. destruct (cleanup w); by repeat split. Qed.

Lemma deliver_error_sticky (b : Browser) (w : World) (h : Happening) :
  is_Some (error w) →
  is_Some (error (deliver b w h)) ∧
  fetches (log (deliver b w h)) = fetches (log w).
Proof.
  intros He. destruct h as [o| |p].
  - simpl. destruct (pending w) as [|p rest]; [done|].
    unfold geocodeAddress_resume.
    destruct o as [[[[|f0 fs]|]]|t]; simpl;
      rewrite ?fetches_app, ?app_nil_r; try (split; [by eauto|done]).
    destruct (relevantFeature toLowerCase p (f0 :: fs)); simpl;
      [destruct (map w); simpl|];
      rewrite ?fetches_app, ?app_nil_r; done.
  - destruct (fireLoad_frame b w) as (H1 & _ & _ & H2).
    simpl. by rewrite H1, H2.
  - simpl. unfold rerender.
    assert (Hc : mapContainer (commit w) = false).
    { unfold commit, render. simpl. by destruct He as [e ->]. }
    destruct (decide _); [done|].
    destruct (runCleanup_frame (commit w)) as ((H1 & _ & _ & H2) & H3).
    unfold effect. rewrite H3, Hc. simpl. by rewrite H1, H2.
Qed.

(** X17.  An error is final for a mounted widget: once an error text
    is set, nothing that can happen to the widget (further responses, the
    load of the map, renders with the same or with new props) clears it
    or makes the widget call the geocoding endpoint again; it keeps
    rendering an alert. *)
Theorem error_is_final (b : Browser) (p : NeighborhoodMapProps)
    (pre post : list Happening) :
  is_Some (error (run b p pre)) →
  fetches (log (run b p (pre ++ post))) = fetches (log (run b p pre)) ∧
  ∃ msg, error (run b p (pre ++ post)) = Some msg ∧
         render (run b p (pre ++ post)) = Alert msg.
Proof.
  unfold NeighborhoodMap.run. rewrite foldl_app.
  generalize (foldl (deliver b) (mount defaultCenter b p) pre).
  induction post as [|h post IH]; intros w He; simpl.
  - split; [done|]. destruct He as [msg He]. exists msg.
    unfold render. by rewrite He.
  - destruct (deliver_error_sticky b w h He) as [He' Hf].
    destruct (IH _ He') as [IH1 IH2]. split; [congruence|done].
Qed.

(** A render with changed props while no error is shown. *)
Lemma rerender_new_props (b : Browser) (w : World)
    (p' : NeighborhoodMapProps) :
  error w = None →
  deps w ≠ p' →
  let w' := deliver b w (Rerender p') in
  deps w' = p' ∧
  map w' = Some (addControl "GeolocateControl"
                   (addControl "NavigationControl"
                      (newMap defaultCenter b))) ∧
  (uriEncodable b (fullAddress p') = true →
   fetches (log w') = fetches (log w) ++ [geocodingRequest b p'] ∧
   pending w' = pending w ++ [p'] ∧
   error w' = None) ∧
  (uriEncodable b (fullAddress p') = false →
   fetches (log w') = fetches (log w) ∧
   pending w' = pending w ∧
   error w' = Some "Failed to load map data").
Proof.
  intros He Hd. cbn zeta.
  change (deliver b w (Rerender p')) with (rerender defaultCenter b p' w).
  unfold rerender.
  assert (Hc : mapContainer (commit w) = true).
  { unfold commit, render. by rewrite He. }
  destruct (decide _) as [Heq|_]; [done|].
  destruct (runCleanup_frame (commit w)) as ((H1 & _ & H3 & H2) & H4).
  unfold effect. rewrite H4, Hc. cbn [negb].
  unfold geocodeAddress.
  destruct (uriEncodable b (fullAddress p')); unfold setError, emit;
    cbn [log pending deps error map];
    rewrite ?fetches_app, ?H1, ?H2, ?H3; simpl; rewrite ?app_nil_r, ?He;
    (split_and!; try done; intros ?; by split_and!).
Qed.

(** X18.  While no error is shown, a render with a changed prop starts
    over, at any point of the life of the widget: a fresh map with its
    two controls replaces the current one, and the new address is
    geocoded.  When it can be URI-encoded exactly one new request, for
    the new props, is sent and awaited; when it cannot, no request is
    sent and the error text is set. *)
Theorem new_props_geocode_again (b : Browser) (p p' : NeighborhoodMapProps)
    (hs : list Happening) :
  error (run b p hs) = None →
  deps (run b p hs) ≠ p' →
  let w := run b p hs in
  let w' := run b p (hs ++ [Rerender p']) in
  deps w' = p' ∧
  map w' = Some (addControl "GeolocateControl"
                   (addControl "NavigationControl"
                      (newMap defaultCenter b))) ∧
  (uriEncodable b (fullAddress p') = true →
   fetches (log w') = fetches (log w) ++ [geocodingRequest b p'] ∧
   pending w' = pending w ++ [p'] ∧
   error w' = None) ∧
  (uriEncodable b (fullAddress p') = false →
   fetches (log w') = fetches (log w) ∧
   pending w' = pending w ∧
   error w' = Some "Failed to load map data").
Proof.
  intros He Hd. cbn zeta. unfold NeighborhoodMap.run in *.
  rewrite foldl_app. cbn [foldl].
  by apply rerender_new_props.
Qed.

(** ** The cleanup *)

Lemma filter_all {A : Type} (P : A → Prop) `{∀ x, Decision (P x)}
    (l : list A) :
  (∀ x, x ∈ l → P x) → filter P l = l.
Proof.
  induction l as [|a l IH]; intros Hl; [done|].
  rewrite filter_cons_True by (apply Hl; by left).
  f_equal. apply IH. intros x Hx. apply Hl. by right.
Qed.

(** Removing only what is there is removing. *)
Lemma removeLayerIf_removeLayer (name : string) (m : MapState) :
  removeLayerIf name m = removeLayer name m.
Proof.
  unfold removeLayerIf. destruct (getLayer m name) eqn:E; [done|].
  apply bool_decide_eq_false in E.
  destruct m. unfold removeLayer. simpl in *. f_equal.
  symmetry. apply filter_all. intros l Hl Heq. apply E.
  apply list_elem_of_fmap. by exists l.
Qed.

Lemma removeSourceIf_removeSource (name : string) (m : MapState) :
  removeSourceIf name m = removeSource name m.
Proof.
  unfold removeSourceIf. destruct (getSource m name) eqn:E; [done|].
  apply bool_decide_eq_false in E.
  destruct m. unfold removeSource. simpl in *. f_equal.
  symmetry. apply filter_all. intros x Hx Heq. apply E.
  apply list_elem_of_fmap. by exists x.
Qed.

(** X19.  The cleanup of an effect that created a map removes from the
    current map every layer and source the component adds (the circle,
    the four boundary layers, the two sources), keeps every other layer
    and source, and removes the map; it sends nothing and sets no error.
    An effect that returned early has no cleanup. *)
Theorem cleanup_removes_what_was_added (w : World) (m : MapState) :
  map w = Some m →
  (cleanup w = true →
   ∃ m', map (runCleanup w) = Some m' ∧
         removed m' = true ∧
         (∀ l, l ∈ layers m' ↔
               l ∈ layers m ∧
               layer_id l ∉ ["neighborhood-fill"; "neighborhood-boundaries";
                             "neighborhood-boundaries-line";
                             "city-boundaries"; "city-boundaries-line"]) ∧
         (∀ x, x ∈ sources m' ↔
               x ∈ sources m ∧
               x.1 ∉ ["neighborhood"; "admin-boundaries"]) ∧
         markers m' = markers m ∧
         same_frame w (runCleanup w)) ∧
  (cleanup w = false → runCleanup w = w).
Proof.
  clear toLowerCase defaultCenter.
  intros Hm. unfold runCleanup. split; intros Hc; rewrite Hc; [|done].
  unfold onMap, setMap. rewrite Hm. simpl.
  rewrite !removeLayerIf_removeLayer, !removeSourceIf_removeSource.
  eexists. split; [reflexivity|]. destruct m. simpl.
  split_and!; try done.
  - intros l. rewrite !list_elem_of_filter, !not_elem_of_cons, elem_of_nil.
    tauto.
  - intros x. rewrite !list_elem_of_filter, !not_elem_of_cons, elem_of_nil.
    tauto.
Qed.

(** ** An answer that comes after the props have changed *)

(** The first run of the load listener on a map without layers. *)
Lemma loadHandler_fresh (b : Browser) (c : number * number) (w : World)
    (m : MapState) :
  map w = Some m →
  layers m = [] →
  "admin-boundaries" ∉ (sources m).*1 →
  ∃ m', map (loadHandler b c w) = Some m' ∧
        layers m' = [neighborhoodFill; neighborhoodBoundaries;
                     neighborhoodBoundariesLine; cityBoundaries;
                     cityBoundariesLine] ∧
        markers m' = markers m ∧
        "neighborhood" ∈ (sources m').*1 ∧
        "admin-boundaries" ∈ (sources m').*1.
Proof.
  clear toLowerCase defaultCenter.
  intros Hm Hl Hs. unfold loadHandler. rewrite Hm.
  destruct m as [st cam ctl srcs lys mks lhs ld rm]. simpl in *. subst lys.
  assert (Hadm : ∀ l : list (string * Source),
            "admin-boundaries" ∉ l.*1 →
            "admin-boundaries"
              ∉ (l ++ [("neighborhood", GeoJSONPoint c)]).*1).
  { intros l Hl. rewrite fmap_app. intros H.
    apply elem_of_app in H as [H|H]; [done|].
    by apply list_elem_of_singleton in H. }
  assert (Hin : ∀ l : list (string * Source),
            "neighborhood"
              ∈ ((l ++ [("neighborhood", GeoJSONPoint c)]) ++
                 [("admin-boundaries",
                   VectorSource "mapbox://mapbox.mapbox-streets-v8")]).*1 ∧
            "admin-boundaries"
              ∈ ((l ++ [("neighborhood", GeoJSONPoint c)]) ++
                 [("admin-boundaries",
                   VectorSource "mapbox://mapbox.mapbox-streets-v8")]).*1).
  { intros l. rewrite !fmap_app. split.
    - apply elem_of_app. left. apply elem_of_app. right. by left.
    - apply elem_of_app. right. by left. }
  destruct (getSource _ "neighborhood"); simpl; rewrite Hm; simpl;
    unfold getSource at 1; simpl;
    (rewrite bool_decide_eq_false_2;
     [ unfold getUserLocation, onMap, setMap; simpl;
       destruct (geolocation b); simpl; rewrite Hm; simpl;
       eexists; split_and!; try done; apply Hin
     | apply Hadm ]); [|done].
  intros H. apply list_elem_of_fmap in H as ([n s0] & Hn & H).
  apply list_elem_of_filter in H as [_ H].
  apply Hs. apply list_elem_of_fmap. by exists (n, s0).
Qed.

(** A further run of the load listener, on a map that has both sources:
    the circle is replaced, the boundary layers are left alone. *)
Lemma loadHandler_again (b : Browser) (c : number * number) (w : World)
    (m : MapState) :
  map w = Some m →
  "neighborhood" ∈ (sources m).*1 →
  "admin-boundaries" ∈ (sources m).*1 →
  ∃ m', map (loadHandler b c w) = Some m' ∧
        layers m' = filter (λ l, layer_id l ≠ "neighborhood-fill") (layers m)
                    ++ [neighborhoodFill] ∧
        markers m' = markers m ∧
        (∀ c', ("neighborhood", GeoJSONPoint c') ∈ sources m' ↔ c' = c).
Proof.
  clear toLowerCase defaultCenter.
  intros Hm Hn Ha. unfold loadHandler. rewrite Hm.
  assert (G1 : getSource m "neighborhood" = true)
    by (by apply bool_decide_eq_true_2).
  rewrite G1. unfold onMap, setMap. simpl. rewrite Hm. simpl.
  assert (G2 : getSource
                 (addLayer neighborhoodFill
                    (addSource "neighborhood" (GeoJSONPoint c)
                       (removeSource "neighborhood"
                          (removeLayer "neighborhood-fill" m))))
                 "admin-boundaries" = true).
  { apply bool_decide_eq_true_2. simpl.
    rewrite fmap_app. apply elem_of_app. left.
    apply list_elem_of_fmap in Ha as ([n s0] & Hn' & Ha). simpl in Hn'.
    subst n. apply list_elem_of_fmap. exists ("admin-boundaries", s0).
    split; [done|]. by apply list_elem_of_filter. }
  rewrite G2. simpl. unfold getUserLocation.
  destruct (geolocation b); simpl; eexists; (split_and!; try done);
    intros c'; simpl; rewrite elem_of_app, list_elem_of_filter,
                        list_elem_of_singleton; simpl;
    (split; [intros [[? _]|[= ->]]; done | intros ->; by right]).
Qed.

(** X20.  Nothing cancels a pending geocoding call.  When a prop
    changes while the call of the mount is pending (both addresses can
    be encoded, so both calls are made), the late answer to
    that call is applied to the map of the new effect: the new map gets
    the marker of the old props, with their popup, before the marker of
    the new props.  At the load of the map both listeners run; the
    boundary layers are added once, and the circle is the one of the last
    answer. *)
Theorem late_answer_marks_the_new_map (b : Browser)
    (p p' : NeighborhoodMapProps) (d1 d2 : GeocodingData)
    (f1 f2 : MapboxFeature) (fs1 fs2 : list MapboxFeature) :
  uriEncodable b (fullAddress p) = true →
  uriEncodable b (fullAddress p') = true →
  p ≠ p' →
  features d1 = Some (f1 :: fs1) →
  features d2 = Some (f2 :: fs2) →
  "admin-boundaries" ∉ style_sources b →
  ∃ g1 g2 m,
    relevantFeature toLowerCase p (f1 :: fs1) = Some g1 ∧
    relevantFeature toLowerCase p' (f2 :: fs2) = Some g2 ∧
    map (run b p [Rerender p'; Response (Resolved d1);
                  Response (Resolved d2); MapLoad]) = Some m ∧
    markers m = [mkMarker (center g1) 25 (popup p);
                 mkMarker (center g2) 25 (popup p')] ∧
    layers m = [neighborhoodBoundaries; neighborhoodBoundariesLine;
                cityBoundaries; cityBoundariesLine; neighborhoodFill] ∧
    (∀ c, ("neighborhood", GeoJSONPoint c) ∈ sources m ↔ c = center g2).
Proof.
  intros Henc Henc' Hp Hd1 Hd2 Hs. unfold NeighborhoodMap.run. cbn [foldl].
  (* the render with the new props *)
  destruct (mount_fetches defaultCenter b p Henc)
    as (_ & Hqm & Hdm & Hem & _).
  destruct (rerender_new_props b (mount defaultCenter b p) p')
    as (_ & Hm0 & Hq0 & _); [done | by rewrite Hdm |].
  destruct (Hq0 Henc') as (_ & Hq0' & _). clear Hq0.
  rename Hq0' into Hq0. rewrite Hqm in Hq0.
  set (w0 := deliver b (mount defaultCenter b p) (Rerender p')) in *.
  cbn zeta in Hq0, Hm0. simpl in Hq0.
  (* the answer to the call of the mount *)
  set (w0' := mkWorld (error w0) (mapContainer w0) (map w0) (deps w0)
                      (cleanup w0) [p'] (log w0)).
  assert (E1 : deliver b w0 (Response (Resolved d1))
               = geocodeAddress_resume toLowerCase p (Resolved d1) w0').
  { simpl. by rewrite Hq0. }
  rewrite E1.
  destruct (resume_success p d1 f1 fs1 w0' _ Hd1 Hm0)
    as (_ & Hq1 & g1 & m1 & Hg1 & Hm1 & _ & Hk1 & Hh1 & Hl1 & Hs1
        & Hld1 & Hrm1).
  set (w1 := geocodeAddress_resume toLowerCase p (Resolved d1) w0') in *.
  (* the answer to the call of the new effect *)
  set (w1' := mkWorld (error w1) (mapContainer w1) (map w1) (deps w1)
                      (cleanup w1) [] (log w1)).
  assert (E2 : deliver b w1 (Response (Resolved d2))
               = geocodeAddress_resume toLowerCase p' (Resolved d2) w1').
  { simpl. by rewrite Hq1. }
  rewrite E2.
  destruct (resume_success p' d2 f2 fs2 w1' _ Hd2 Hm1)
    as (_ & _ & g2 & m2 & Hg2 & Hm2 & _ & Hk2 & Hh2 & Hl2 & Hs2
        & Hld2 & Hrm2).
  set (w2 := geocodeAddress_resume toLowerCase p' (Resolved d2) w1') in *.
  assert (Hld : loaded m2 = false) by (by rewrite Hld2, Hld1).
  assert (Hrm : removed m2 = false) by (by rewrite Hrm2, Hrm1).
  (* the load *)
  exists g1, g2. simpl. unfold fireLoad.
  rewrite Hm2, Hld, Hrm, Hh2, Hh1. simpl.
  destruct (loadHandler_fresh b (center g1) (onMap setLoaded w2)
              (setLoaded m2)) as (m3 & Hm3 & Hl3 & Hk3 & Hn3 & Ha3).
  { unfold onMap, setMap. simpl. by rewrite Hm2. }
  { simpl. by rewrite Hl2, Hl1. }
  { simpl. rewrite Hs2, Hs1. simpl. rewrite <- list_fmap_compose.
    intros H. apply list_elem_of_fmap in H as (n & Hn & H).
    simpl in Hn. by subst n. }
  destruct (loadHandler_again b (center g2)
              (loadHandler b (center g1) (onMap setLoaded w2)) m3
              Hm3 Hn3 Ha3) as (m4 & Hm4 & Hl4 & Hk4 & Hs4).
  exists m4. split_and!; try done.
  - rewrite Hk4, Hk3. simpl. by rewrite Hk2, Hk1.
  - by rewrite Hl4, Hl3.
Qed.

(** ** When a request is sent *)

(** X21.  After the mount a geocoding request is sent by one thing
    only: a render whose props differ from those of the last effect,
    while no error is shown; it is then the request for the new props.
    A response and the load of the map never send one. *)
Theorem request_only_on_new_props (b : Browser) (w : World) (h : Happening) :
  fetches (log (deliver b w h)) = fetches (log w) ∨
  (∃ p', h = Rerender p' ∧ deps w ≠ p' ∧ error w = None ∧
         fetches (log (deliver b w h))
           = fetches (log w) ++ [geocodingRequest b p']).
Proof.
  destruct h as [o| |p'].
  - left. destruct (pending w) as [|p rest] eqn:Hp.
    + by rewrite deliver_response_idle.
    + by destruct (deliver_response toLowerCase defaultCenter b w o p rest Hp)
        as (_ & _ & H & _).
  - left. by destruct (fireLoad_frame b w) as (_ & _ & _ & H).
  - destruct (decide (deps w = p')) as [<-|Hd].
    + left. simpl. by rewrite rerender_same.
    + destruct (error w) as [e|] eqn:He.
      * left. apply deliver_error_sticky. by rewrite He.
      * destruct (rerender_new_props b w p' He Hd) as (_ & _ & Hy & Hn).
        destruct (uriEncodable b (fullAddress p')).
        -- right. exists p'. split_and!; try done.
           by destruct (Hy eq_refl) as (H & _).
        -- left. by destruct (Hn eq_refl) as (H & _).
Qed.

End Extra.

Lemma matching_with_missing_parts_witness :
  context bareFeature = None ∧
  isRelevant toLowerCase sampleProps bareFeature = false.
Proof.
  split; [reflexivity|].
  apply (proj2 (proj2 (matching_with_missing_parts toLowerCase sampleProps
                         bareFeature))).
  - by eexists.
  - reflexivity.
Defined.

Lemma response_marks_or_fails_witness :
  geocodingFailed (Resolved noFeatures) ∧
  is_Some (error (geocodeAddress_resume toLowerCase sampleProps
                    (Resolved noFeatures)
                    (mount sampleCenter sampleBrowser sampleProps))).
Proof.
  split; [exact I|].
  exact (proj2 (proj1 (response_marks_or_fails toLowerCase sampleProps
                         (Resolved noFeatures)
                         (mount sampleCenter sampleBrowser sampleProps)) I)).
Defined.

Lemma error_is_final_witness :
  is_Some (error (run toLowerCase sampleCenter sampleBrowser sampleProps
                    [Response (Resolved noFeatures)])) ∧
  fetches (log (run toLowerCase sampleCenter sampleBrowser sampleProps
                  ([Response (Resolved noFeatures)] ++
                   [Rerender movedProps; MapLoad;
                    Response (Resolved sampleData)])))
    = [geocodingRequest sampleBrowser sampleProps].
Proof.
  assert (H : is_Some (error (run toLowerCase sampleCenter sampleBrowser
                                sampleProps [Response (Resolved noFeatures)])))
    by (by eexists).
  split; [exact H|].
  exact (proj1 (error_is_final toLowerCase sampleCenter sampleBrowser
                  sampleProps [Response (Resolved noFeatures)]
                  [Rerender movedProps; MapLoad;
                   Response (Resolved sampleData)] H)).
Defined.

Lemma new_props_geocode_again_witness :
  error (mount sampleCenter sampleBrowser sampleProps) = None ∧
  deps (mount sampleCenter sampleBrowser sampleProps) ≠ movedProps ∧
  fetches (log (run toLowerCase sampleCenter sampleBrowser sampleProps
                  [Rerender movedProps]))
    = [geocodingRequest sampleBrowser sampleProps;
       geocodingRequest sampleBrowser movedProps].
Proof.
  assert (H : deps (mount sampleCenter sampleBrowser sampleProps)
              ≠ movedProps) by discriminate.
  split_and!; [reflexivity | exact H |].
  exact (proj1 (proj1 (proj2 (proj2
           (new_props_geocode_again toLowerCase sampleCenter
              sampleBrowser sampleProps movedProps [] eq_refl H))) eq_refl)).
Defined.

Lemma cleanup_removes_what_was_added_witness :
  (∃ m, map (run toLowerCase sampleCenter sampleBrowser sampleProps
               [Response (Resolved sampleData); MapLoad]) = Some m ∧
        length (layers m) = 5%nat) ∧
  (∃ m', map (runCleanup
                (run toLowerCase sampleCenter sampleBrowser sampleProps
                   [Response (Resolved sampleData); MapLoad])) = Some m' ∧
         removed m' = true ∧
         layers m' = [] ∧
         sources m' = [("composite", StyleSource)]).
Proof.
  split; [eexists; split; reflexivity|].
  destruct (proj1 (cleanup_removes_what_was_added
              (run toLowerCase sampleCenter sampleBrowser sampleProps
                 [Response (Resolved sampleData); MapLoad]) _ eq_refl)
              eq_refl) as (m' & Hm' & Hr & _).
  exists m'. split_and!; [exact Hm' | exact Hr | |];
    vm_compute in Hm'; by simplify_eq.
Defined.

Lemma late_answer_marks_the_new_map_witness :
  sampleProps ≠ movedProps ∧
  ("admin-boundaries" ∉ style_sources sampleBrowser) ∧
  (∃ m, map (run toLowerCase sampleCenter sampleBrowser sampleProps
               [Rerender movedProps; Response (Resolved sampleData);
                Response (Resolved sampleData); MapLoad]) = Some m ∧
        popupHTML <$> markers m = [popup sampleProps; popup movedProps]).
Proof.
  assert (H1 : sampleProps ≠ movedProps) by discriminate.
  assert (H2 : "admin-boundaries" ∉ style_sources sampleBrowser)
    by (apply (bool_decide_unpack _); vm_compute; exact I).
  split_and!; [exact H1 | exact H2 |].
  destruct (late_answer_marks_the_new_map toLowerCase sampleCenter
              sampleBrowser sampleProps movedProps sampleData sampleData
              featureElsewhere featureElsewhere
              [featureInProvo] [featureInProvo] eq_refl eq_refl
              H1 eq_refl eq_refl H2)
    as (g1 & g2 & m & _ & _ & Hm & Hk & _).
  exists m. split; [exact Hm|]. by rewrite Hk.
Defined.

End NeighborhoodMapExtra.

(** * Properties of the menu and of the authentication callbacks *)

Module MenuAndAuthProofs.
Import HamburgerMenu AuthRoute.

(** X23.  Starting from the closed menu, the Logout item is rendered
    exactly after an odd number of clicks on the menu button. *)
Theorem logout_rendered_after_odd_clicks (n : nat) :
  logoutRendered (Nat.iter n toggleMenu false) = Nat.odd n.
Proof.
  unfold logoutRendered, toggleMenu.
  induction n as [|n IH]; [done|].
  rewrite Nat.odd_succ, <- Nat.negb_odd, <- IH. done.
Qed.

(** X24.  The [jwt] callback persists the user id: once called with a
    user the token holds that id under [id] and keeps it through later
    calls without a user; a later user replaces it; the other claims of
    the token are never touched, and without a user the token is returned
    as it came.  The [session] callback returns the session it is given. *)
Theorem jwt_persists_the_id (token : gmap string string) (u u' : string) :
  jwt (jwt token (Some u)) None !! "id" = Some u ∧
  jwt (jwt token (Some u)) (Some u') = jwt token (Some u') ∧
  (∀ k o, k ≠ "id" → jwt token o !! k = token !! k) ∧
  jwt token None = token ∧
  session token = token.
Proof.
  unfold jwt, session. split_and!; try done.
  - apply lookup_insert_eq.
  - apply insert_insert_eq.
  - intros k [x|] Hk; [|done]. by apply lookup_insert_ne.
Qed.

End MenuAndAuthProofs.
